(** * The generation-request workflow of the ThisAICodes API

    A shallow embedding of [apps/api/src/routes/generation.ts],
    [apps/api/src/services/ai-service.ts] and
    [apps/api/src/services/v0-service.ts], and the properties of the
    workflow that the specification states about them.  The second part
    covers the rest of these files and the code around them: the two GET
    routes, [apps/api/src/services/email-service.ts] and the handlers of
    [apps/api/src/routes/auth.ts].

    Conventions.  JavaScript strings are modelled as byte strings
    ([String.string]); character classes such as [\s] and case conversion
    are those of the one-byte characters.  JavaScript numbers that come out
    of [JSON.parse] are kept as exact decimals; the numbers [parseInt]
    produces are the binary64 numbers nearest to the integers read, with
    [None] standing for [NaN]. *)

From stdpp Require Import gmap strings list fin_maps pretty.
From Stdlib Require Import ZArith Ascii String.

Open Scope string_scope.

(** ** JavaScript values *)

Module Js.

(** [JNum m e] is the number [m * 10^e].  [JFun] stands for functions and
    other host objects, of which only the name matters. *)
#[local] Unset Elimination Schemes.
Inductive jsval : Type :=
| JUndefined
| JNull
| JBool (b : bool)
| JNum (m e : Z)
| JStr (s : string)
| JArr (items : list jsval)
| JObj (fields : list (string * jsval))
| JFun (name : string).
#[local] Set Elimination Schemes.

(** A thrown [Error] object: its constructor's name and its [message]. *)
Record exn : Type := Exn { ename : string; message : string }.

Definition Error (msg : string) : exn := Exn "Error" msg.
Definition TypeError (msg : string) : exn := Exn "TypeError" msg.
Definition SyntaxError (msg : string) : exn := Exn "SyntaxError" msg.
Definition ReferenceError (msg : string) : exn := Exn "ReferenceError" msg.

(** The double quote character. *)
Definition dquote : ascii := "034"%char.
Definition dq : string := String dquote "".

(** ToBoolean. *)
Definition truthy (v : jsval) : bool :=
  match v with
  | JUndefined | JNull => false
  | JBool b => b
  | JNum m _ => negb (m =? 0)%Z
  | JStr s => negb (String.eqb s "")
  | JArr _ | JObj _ | JFun _ => true
  end.

(** [a || b]. *)
Definition js_or (a b : jsval) : jsval := if truthy a then a else b.

Fixpoint assoc (k : string) (l : list (string * jsval)) : option jsval :=
  match l with
  | [] => None
  | (k', v) :: l' => if String.eqb k k' then Some v else assoc k l'
  end.

(** Setting a property keeps the position of a key that is already there. *)
Fixpoint obj_set (k : string) (v : jsval) (l : list (string * jsval))
  : list (string * jsval) :=
  match l with
  | [] => [(k, v)]
  | (k', v') :: l' =>
      if String.eqb k k' then (k, v) :: l' else (k', v') :: obj_set k v l'
  end.

(** [v.k] for a property name [k] that no prototype defines: [None] is the
    TypeError of reading a property of [null] or [undefined]. *)
Definition prop (v : jsval) (k : string) : option jsval :=
  match v with
  | JUndefined | JNull => None
  | JObj fs => Some (default JUndefined (assoc k fs))
  | _ => Some JUndefined
  end.

Definition cannot_read (v : jsval) (k : string) : exn :=
  TypeError ("Cannot read properties of "
             +:+ (match v with JNull => "null" | _ => "undefined" end)
             +:+ " (reading '" +:+ k +:+ "')").

Definition join (sep : string) (l : list string) : string :=
  match l with
  | [] => ""
  | x :: l' => fold_left (fun acc y => acc +:+ sep +:+ y) l' x
  end.

Definition num_to_string (m e : Z) : string :=
  if (0 <=? e)%Z then pretty (m * 10 ^ e)%Z
  else pretty m +:+ "e" +:+ pretty e.

(** ToString, as a template literal applies it.  Numbers with a negative
    decimal exponent are shown in exponent form. *)
Fixpoint to_string (v : jsval) : string :=
  match v with
  | JUndefined => "undefined"
  | JNull => "null"
  | JBool true => "true"
  | JBool false => "false"
  | JNum m e => num_to_string m e
  | JStr s => s
  | JArr l =>
      join "," (map (fun x => match x with
                              | JUndefined | JNull => ""
                              | _ => to_string x
                              end) l)
  | JObj _ => "[object Object]"
  | JFun name => "function " +:+ name +:+ "() { [native code] }"
  end.

(** [s] occurs in [t]. *)
Definition includes (s t : string) : Prop :=
  exists a b : string, t = a +:+ s +:+ b.

Fixpoint starts_with (p s : string) : bool :=
  match p, s with
  | EmptyString, _ => true
  | String a p', String b s' => Ascii.eqb a b && starts_with p' s'
  | String _ _, EmptyString => false
  end.

Fixpoint drop (n : nat) (s : string) : string :=
  match n, s with
  | O, _ => s
  | S n', String _ s' => drop n' s'
  | S _, EmptyString => EmptyString
  end.

End Js.
Export Js.

(** ** [JSON.parse] and [JSON.stringify] *)

Module Json.

Definition is_ws (c : ascii) : bool :=
  Ascii.eqb c " " || Ascii.eqb c "009" || Ascii.eqb c "010" || Ascii.eqb c "013".

Fixpoint skip_ws (s : string) : string :=
  match s with
  | String c r => if is_ws c then skip_ws r else s
  | EmptyString => s
  end.

Definition code (c : ascii) : Z := Z.of_N (N_of_ascii c).
Definition chr (n : Z) : ascii := ascii_of_N (Z.to_N n).

Definition digit_val (c : ascii) : option Z :=
  let n := code c in
  if (48 <=? n)%Z && (n <=? 57)%Z then Some (n - 48)%Z else None.

Definition hex_val (c : ascii) : option Z :=
  let n := code c in
  if (48 <=? n)%Z && (n <=? 57)%Z then Some (n - 48)%Z
  else if (97 <=? n)%Z && (n <=? 102)%Z then Some (n - 87)%Z
  else if (65 <=? n)%Z && (n <=? 70)%Z then Some (n - 55)%Z
  else None.

(** The longest run of decimal digits at the head of [s]: its value when
    appended to [acc], its length added to [cnt], and what follows. *)
Fixpoint digits (s : string) (acc cnt : Z) : Z * Z * string :=
  match s with
  | String c r =>
      match digit_val c with
      | Some d => digits r (10 * acc + d)%Z (cnt + 1)%Z
      | None => (acc, cnt, s)
      end
  | EmptyString => (acc, cnt, s)
  end.

(** A JSON number: an optional minus sign, an integer part without
    superfluous leading zero, an optional fraction and an optional exponent. *)
Definition parse_number (s : string) : option (jsval * string) :=
  let '(neg, s1) :=
    match s with
    | String c r => if Ascii.eqb c "-" then (true, r) else (false, s)
    | EmptyString => (false, s)
    end in
  let int_part :=
    match s1 with
    | String c r =>
        if Ascii.eqb c "0" then Some (0%Z, r)
        else match digits s1 0 0 with
             | (_, 0%Z, _) => None
             | (n, _, r') => Some (n, r')
             end
    | EmptyString => None
    end in
  match int_part with
  | None => None
  | Some (n, s2) =>
      let frac :=
        match s2 with
        | String c r =>
            if Ascii.eqb c "." then
              match digits r n 0 with
              | (_, 0%Z, _) => None
              | (n', k, r') => Some (n', k, r')
              end
            else Some (n, 0%Z, s2)
        | EmptyString => Some (n, 0%Z, s2)
        end in
      match frac with
      | None => None
      | Some (m, k, s3) =>
          let expo :=
            match s3 with
            | String c r =>
                if Ascii.eqb c "e" || Ascii.eqb c "E" then
                  let '(eneg, r1) :=
                    match r with
                    | String d r' =>
                        if Ascii.eqb d "-" then (true, r')
                        else if Ascii.eqb d "+" then (false, r')
                        else (false, r)
                    | EmptyString => (false, r)
                    end in
                  match digits r1 0 0 with
                  | (_, 0%Z, _) => None
                  | (x, _, r2) => Some ((if eneg then - x else x)%Z, r2)
                  end
                else Some (0%Z, s3)
            | EmptyString => Some (0%Z, s3)
            end in
          match expo with
          | None => None
          | Some (x, s4) =>
              Some (JNum (if neg then - m else m)%Z (x - k)%Z, s4)
          end
      end
  end.

(** The bytes of code unit [n] (of a [\uXXXX] escape) in UTF-8. *)
Definition utf8 (n : Z) : string :=
  if (n <? 128)%Z then String (chr n) ""
  else if (n <? 2048)%Z then
    String (chr (192 + n / 64)) (String (chr (128 + n mod 64)) "")
  else
    String (chr (224 + n / 4096))
      (String (chr (128 + (n / 64) mod 64)) (String (chr (128 + n mod 64)) "")).

Definition simple_escape (c : ascii) : option ascii :=
  if Ascii.eqb c dquote then Some dquote
  else if Ascii.eqb c "\" then Some "\"%char
  else if Ascii.eqb c "/" then Some "/"%char
  else if Ascii.eqb c "b" then Some "008"%char
  else if Ascii.eqb c "f" then Some "012"%char
  else if Ascii.eqb c "n" then Some "010"%char
  else if Ascii.eqb c "r" then Some "013"%char
  else if Ascii.eqb c "t" then Some "009"%char
  else None.

(** The characters of a string literal after its opening quote, up to and
    including the closing quote. *)
Fixpoint parse_chars (s : string) : option (string * string) :=
  match s with
  | EmptyString => None
  | String c r =>
      if Ascii.eqb c dquote then Some ("", r)
      else if Ascii.eqb c "\" then
        match r with
        | String e r' =>
            if Ascii.eqb e "u" then
              match r' with
              | String h1 (String h2 (String h3 (String h4 r''))) =>
                  match hex_val h1, hex_val h2, hex_val h3, hex_val h4 with
                  | Some a, Some b, Some c', Some d =>
                      match parse_chars r'' with
                      | Some (str, rest) =>
                          Some (utf8 (4096 * a + 256 * b + 16 * c' + d)%Z +:+ str, rest)
                      | None => None
                      end
                  | _, _, _, _ => None
                  end
              | _ => None
              end
            else
              match simple_escape e with
              | Some ch =>
                  match parse_chars r' with
                  | Some (str, rest) => Some (String ch str, rest)
                  | None => None
                  end
              | None => None
              end
        | EmptyString => None
        end
      else if (code c <? 32)%Z then None
      else
        match parse_chars r with
        | Some (str, rest) => Some (String c str, rest)
        | None => None
        end
  end.

Definition literal (word : string) (v : jsval) (s : string)
  : option (jsval * string) :=
  if starts_with word s then Some (v, drop (String.length word) s) else None.

Fixpoint parse_value (fuel : nat) (s : string) : option (jsval * string) :=
  match fuel with
  | O => None
  | S fuel' =>
      match skip_ws s with
      | EmptyString => None
      | String c r =>
          if Ascii.eqb c "{" then
            match skip_ws r with
            | String c' r' =>
                if Ascii.eqb c' "}" then Some (JObj [], r')
                else parse_members fuel' r []
            | EmptyString => None
            end
          else if Ascii.eqb c "[" then
            match skip_ws r with
            | String c' r' =>
                if Ascii.eqb c' "]" then Some (JArr [], r')
                else parse_elements fuel' r []
            | EmptyString => None
            end
          else if Ascii.eqb c dquote then
            match parse_chars r with
            | Some (str, rest) => Some (JStr str, rest)
            | None => None
            end
          else if Ascii.eqb c "t" then literal "true" (JBool true) (String c r)
          else if Ascii.eqb c "f" then literal "false" (JBool false) (String c r)
          else if Ascii.eqb c "n" then literal "null" JNull (String c r)
          else parse_number (String c r)
      end
  end
with parse_elements (fuel : nat) (s : string) (acc : list jsval)
  : option (jsval * string) :=
  match fuel with
  | O => None
  | S fuel' =>
      match parse_value fuel' s with
      | None => None
      | Some (v, rest) =>
          match skip_ws rest with
          | String c r =>
              if Ascii.eqb c "," then parse_elements fuel' r (acc ++ [v])
              else if Ascii.eqb c "]" then Some (JArr (acc ++ [v]), r)
              else None
          | EmptyString => None
          end
      end
  end
with parse_members (fuel : nat) (s : string) (acc : list (string * jsval))
  : option (jsval * string) :=
  match fuel with
  | O => None
  | S fuel' =>
      match skip_ws s with
      | EmptyString => None
      | String q r =>
          if Ascii.eqb q dquote then
            match parse_chars r with
            | None => None
            | Some (k, rest) =>
                match skip_ws rest with
                | EmptyString => None
                | String colon r2 =>
                    if Ascii.eqb colon ":" then
                      match parse_value fuel' r2 with
                      | None => None
                      | Some (v, rest2) =>
                          match skip_ws rest2 with
                          | String d r3 =>
                              if Ascii.eqb d "," then
                                parse_members fuel' r3 (obj_set k v acc)
                              else if Ascii.eqb d "}" then
                                Some (JObj (obj_set k v acc), r3)
                              else None
                          | EmptyString => None
                          end
                      end
                    else None
                end
            end
          else None
      end
  end.

(** [JSON.parse s]; [None] is the SyntaxError. *)
Definition parse (s : string) : option jsval :=
  match parse_value (2 * String.length s + 4) s with
  | Some (v, rest) =>
      match skip_ws rest with
      | EmptyString => Some v
      | String _ _ => None
      end
  | None => None
  end.

Definition hex_digit (n : Z) : ascii :=
  if (n <? 10)%Z then chr (48 + n) else chr (87 + n).

Definition escape_char (c : ascii) : string :=
  if Ascii.eqb c dquote then "\" +:+ dq
  else if Ascii.eqb c "\" then "\\"
  else if Ascii.eqb c "008" then "\b"
  else if Ascii.eqb c "012" then "\f"
  else if Ascii.eqb c "010" then "\n"
  else if Ascii.eqb c "013" then "\r"
  else if Ascii.eqb c "009" then "\t"
  else if (code c <? 32)%Z then
    "\u00" +:+ String (hex_digit (code c / 16)) (String (hex_digit (code c mod 16)) "")
  else String c "".

Fixpoint escape (s : string) : string :=
  match s with
  | EmptyString => ""
  | String c r => escape_char c +:+ escape r
  end.

Definition quote (s : string) : string := dq +:+ escape s +:+ dq.

(** [JSON.stringify v]; [None] is [undefined].  Properties are written in
    the order in which they were set. *)
Fixpoint stringify (v : jsval) : option string :=
  match v with
  | JUndefined | JFun _ => None
  | JNull => Some "null"
  | JBool true => Some "true"
  | JBool false => Some "false"
  | JNum m e => Some (num_to_string m e)
  | JStr s => Some (quote s)
  | JArr l =>
      Some ("[" +:+ join "," (map (fun x => default "null" (stringify x)) l) +:+ "]")
  | JObj fs =>
      let members :=
        (fix go (l : list (string * jsval)) : list string :=
           match l with
           | [] => []
           | (k, x) :: l' =>
               match stringify x with
               | Some t => (quote k +:+ ":" +:+ t) :: go l'
               | None => go l'
               end
           end) fs in
      Some ("{" +:+ join "," members +:+ "}")
  end.

End Json.

(** ** The two patterns of [generateCode] *)

Module Regex.

(** [\s] on one-byte characters. *)
Definition is_space (c : ascii) : bool :=
  let n := Json.code c in ((9 <=? n)%Z && (n <=? 13)%Z) || (n =? 32)%Z.

Fixpoint skip_space (s : string) : string :=
  match s with
  | String c r => if is_space c then skip_space r else s
  | EmptyString => s
  end.

(** The spaces [skip_space] skips. *)
Fixpoint leading_space (s : string) : string :=
  match s with
  | String c r => if is_space c then String c (leading_space r) else ""
  | EmptyString => ""
  end.

(** What [String.prototype.match] returns for a pattern without the [g]
    flag: the matched text and capture group 1 ([None] when the pattern has
    no group). *)
Record match_result : Type := Match { whole : string; group1 : option string }.

Definition fence : string := "```".

(** The lazy group [([\s\S]*?)] followed by [\s*```]: the shortest prefix
    of [s] after which only spaces separate from a fence.  Returns the
    prefix and the spaces. *)
Fixpoint lazy_group (s : string) : option (string * string) :=
  if starts_with fence (skip_space s) then Some ("", leading_space s)
  else
    match s with
    | EmptyString => None
    | String c r =>
        match lazy_group r with
        | Some (g, sp) => Some (String c g, sp)
        | None => None
        end
    end.

(** The fence pattern anchored at the head of [s].  The greedy [\s*] after
    [json] takes every space: a fence cannot start inside a run of spaces,
    so giving some back never helps. *)
Definition fence_here (s : string) : option match_result :=
  if starts_with "```json" s then
    let r := drop 7 s in
    match lazy_group (skip_space r) with
    | Some (g, sp) =>
        Some (Match ("```json" +:+ leading_space r +:+ g +:+ sp +:+ fence) (Some g))
    | None => None
    end
  else None.

(** [aiText.match(/```json\s*([\s\S]*?)\s*```/)]: the leftmost match. *)
Fixpoint match_fence (s : string) : option match_result :=
  match fence_here s with
  | Some m => Some m
  | None =>
      match s with
      | EmptyString => None
      | String _ r => match_fence r
      end
  end.

(** The longest prefix of [s] that ends in a closing brace. *)
Fixpoint upto_last_brace (s : string) : option string :=
  match s with
  | EmptyString => None
  | String c r =>
      match upto_last_brace r with
      | Some p => Some (String c p)
      | None => if Ascii.eqb c "}" then Some (String c "") else None
      end
  end.

(** [aiText.match(/\{[\s\S]*\}/)]: from the leftmost opening brace that has
    a closing brace after it, greedily to the last closing brace. *)
Fixpoint match_braces (s : string) : option match_result :=
  match s with
  | EmptyString => None
  | String c r =>
      if Ascii.eqb c "{" then
        match upto_last_brace r with
        | Some p => Some (Match (String c p) None)
        | None => match_braces r
        end
      else match_braces r
  end.

End Regex.

(** ** [parseInt] and [Math.min] *)

Module Num.

(** A JavaScript number that is an integer or an infinity; [NaN] is [None].
    The numbers of the history route are of this kind: [parseInt] gives an
    integer, an infinity or [NaN], and so do the differences, products and
    minima of such numbers.  The two zeros are not told apart. *)
Inductive value : Type :=
| Fin (z : Z)
| Inf (negative : bool).

Definition num : Type := option value.

(** The binary64 number nearest to the integer [z], ties to even: an
    integer below 2^53 in magnitude is itself, a larger one keeps its 53
    leading bits, and what rounds to 2^1024 or beyond is an infinity. *)
Definition round64 (z : Z) : value :=
  let a := Z.abs z in
  if (a <? 2 ^ 53)%Z then Fin z
  else
    let e := (Z.log2 a - 52)%Z in
    let q := Z.shiftr a e in
    let r := (a - Z.shiftl q e)%Z in
    let half := Z.shiftl 1 (e - 1) in
    let q' := if (half <? r)%Z || ((r =? half)%Z && Z.odd q) then (q + 1)%Z else q in
    let m := Z.shiftl q' e in
    if (2 ^ 1024 <=? m)%Z then Inf (z <? 0)%Z
    else Fin (if (z <? 0)%Z then - m else m)%Z.

Definition digit_in (radix : Z) (c : ascii) : option Z :=
  match Json.hex_val c with
  | Some d => if (d <? radix)%Z then Some d else None
  | None => None
  end.

Fixpoint radix_digits (radix : Z) (s : string) (acc : Z) (cnt : nat) : Z * nat :=
  match s with
  | String c r =>
      match digit_in radix c with
      | Some d => radix_digits radix r (radix * acc + d)%Z (S cnt)
      | None => (acc, cnt)
      end
  | EmptyString => (acc, cnt)
  end.

(** [parseInt(s)] without a radix: leading white space, a sign, a [0x]
    prefix, then the longest run of digits; [NaN] when there is none, and
    otherwise the number nearest to the integer that the digits denote. *)
Definition parseInt (s : string) : num :=
  let s0 := Regex.skip_space s in
  let '(neg, s1) :=
    match s0 with
    | String c r =>
        if Ascii.eqb c "-" then (true, r)
        else if Ascii.eqb c "+" then (false, r)
        else (false, s0)
    | EmptyString => (false, s0)
    end in
  let '(radix, s2) :=
    if starts_with "0x" s1 || starts_with "0X" s1 then (16%Z, drop 2 s1)
    else (10%Z, s1) in
  match radix_digits radix s2 0 0 with
  | (_, O) => None
  | (v, S _) => Some (round64 (if neg then - v else v))%Z
  end.

(** [x < y] *)
Definition lt (x y : value) : bool :=
  match x, y with
  | Fin a, Fin b => (a <? b)%Z
  | Inf true, Inf true => false
  | Inf true, _ => true
  | Inf false, _ => false
  | Fin _, Inf negative => negb negative
  end.

(** [Math.min(a, b)]: [NaN] when either argument is. *)
Definition min (a b : num) : num :=
  match a, b with
  | Some x, Some y => Some (if lt y x then y else x)
  | _, _ => None
  end.

(** [a - b] *)
Definition sub (a b : num) : num :=
  match a, b with
  | Some (Fin x), Some (Fin y) => Some (round64 (x - y))
  | Some (Inf s), Some (Fin _) => Some (Inf s)
  | Some (Fin _), Some (Inf s) => Some (Inf (negb s))
  | Some (Inf s), Some (Inf t) => if Bool.eqb s t then None else Some (Inf s)
  | _, _ => None
  end.

(** [a * b]: an infinity times zero is [NaN]. *)
Definition mul (a b : num) : num :=
  match a, b with
  | Some (Fin x), Some (Fin y) => Some (round64 (x * y))
  | Some (Inf s), Some (Fin y) | Some (Fin y), Some (Inf s) =>
      if (y =? 0)%Z then None else Some (Inf (xorb s (y <? 0)%Z))
  | Some (Inf s), Some (Inf t) => Some (Inf (xorb s t))
  | _, _ => None
  end.

End Num.

(** ** The world outside the handlers: database, blob store, providers *)

Module World.

(** Rows of the [users] and [generations] tables (the columns the
    generation routes touch) and objects of the R2 bucket. *)
Record user_row : Type := UserRow {
  generations_used : Z;
  generations_limit : Z
}.

Record generation_row : Type := GenerationRow {
  g_user_id : string;
  g_project_id : jsval;
  g_prompt : string;
  g_type : string;
  g_framework : string;
  g_status : string;
  g_result : option string;
  g_files : option string;
  g_error : option string;
  g_created_at : string;
  g_completed_at : option string
}.

Record blob : Type := Blob { b_content : jsval; b_content_type : jsval }.

(** Calls that leave the worker, in the order in which they are made. *)
Inductive event : Type :=
| DbSelectUser (user_id : string)
| DbInsertGeneration (id : string)
| DbUpdateCompleted (id : string)
| DbIncrementUsage (user_id : string)
| DbUpdateFailed (id : string)
| FetchV0
| AiRun
| StoragePut (key : string).

#[global] Instance event_eq_dec : EqDecision event.
Proof. solve_decision. Defined.

Record world : Type := MkWorld {
  users : gmap string user_row;
  generations : gmap string generation_row;
  storage : gmap string blob;
  log : list event
}.

Definition add_log (ev : event) (w : world) : world :=
  MkWorld (users w) (generations w) (storage w) (log w ++ [ev]).
Definition set_users (u : gmap string user_row) (w : world) : world :=
  MkWorld u (generations w) (storage w) (log w).
Definition set_generations (g : gmap string generation_row) (w : world) : world :=
  MkWorld (users w) g (storage w) (log w).
Definition set_storage (b : gmap string blob) (w : world) : world :=
  MkWorld (users w) (generations w) b (log w).

(** What [fetch] to the v0 endpoint does: it rejects, or it resolves to a
    response with its [ok] flag, status and body text. *)
Inductive fetch_outcome : Type :=
| FetchThrows (x : exn)
| FetchResponse (ok : bool) (status : Z) (body : string).

(** What [env.AI.run] does: it rejects, or it resolves to an object whose
    [response] property is a string or is missing. *)
Inductive ai_outcome : Type :=
| AiThrows (x : exn)
| AiReturns (response : option string).

(** The bindings of the worker ([c.env]) and how the services behind them
    answer during one request: a database statement or a [put] rejects when
    the corresponding oracle gives an error; [now n] is what the [n]-th
    [new Date().toISOString()] of the request returns. *)
Record Env : Type := MkEnv {
  V0_API_KEY : option string;
  v0_fetch : fetch_outcome;
  ai_run : ai_outcome;
  put_error : string -> option exn;
  db_error : event -> option exn;
  now : nat -> string
}.

(** Completion of a statement: a value, [return], or a thrown exception. *)
Inductive outcome (A : Type) : Type :=
| Ok (a : A)
| Throw (x : exn).
Arguments Ok {A} a.
Arguments Throw {A} x.

Definition M (A : Type) : Type := world -> outcome A * world.

Definition ret {A} (a : A) : M A := fun w => (Ok a, w).
Definition throw {A} (x : exn) : M A := fun w => (Throw x, w).
Definition bind {A B} (c : M A) (k : A -> M B) : M B :=
  fun w => match c w with
           | (Ok a, w') => k a w'
           | (Throw x, w') => (Throw x, w')
           end.

(** [try { c } catch (x) { h x }] *)
Definition try_catch {A} (c : M A) (h : exn -> M A) : M A :=
  fun w => match c w with
           | (Ok a, w') => (Ok a, w')
           | (Throw x, w') => h x w'
           end.

Definition emit (ev : event) : M unit := fun w => (Ok tt, add_log ev w).

Definition lift_option {A} (o : option A) (x : exn) : M A :=
  match o with Some a => ret a | None => throw x end.

End World.
Export World.

Declare Scope js_scope.
Delimit Scope js_scope with js.
Notation "'do' x <- c1 ; c2" := (bind c1 (fun x => c2))
  (at level 10, x name, c1 at level 100, c2 at level 200) : js_scope.
Notation "'do_' c1 ; c2" := (bind c1 (fun _ => c2))
  (at level 10, c1 at level 100, c2 at level 200) : js_scope.
Open Scope js_scope.

(** ** Statements on the bindings *)

Module Bindings.

(** A prepared statement's [run], [first] or [all]: the call is logged,
    rejects when the oracle says so and otherwise has its effect. *)
Definition db {A} (e : Env) (ev : event) (effect : M A) : M A :=
  do_ emit ev;
  match db_error e ev with
  | Some x => throw x
  | None => effect
  end.

(** [SELECT generations_used, generations_limit FROM users WHERE id = ?],
    [first()]: the row or [null]. *)
Definition select_user (e : Env) (user_id : string) : M (option user_row) :=
  db e (DbSelectUser user_id) (fun w => (Ok (users w !! user_id), w)).

(** What [bind] throws for an argument that is [undefined]; it does so
    before the statement is sent. *)
Definition bind_undefined : exn :=
  Error "D1_TYPE_ERROR: Type 'undefined' not supported for value 'undefined'".

(** [INSERT INTO generations (...) VALUES (?, ?, ?, ?, ?, ?, 'processing', ?)];
    [id] is the primary key.  [project_id] is the one argument of [bind]
    that can be [undefined]. *)
Definition insert_generation (e : Env) (id user_id : string) (project_id : jsval)
    (prompt type framework created_at : string) : M unit :=
  match project_id with
  | JUndefined => throw bind_undefined
  | _ =>
      db e (DbInsertGeneration id)
        (fun w =>
           match generations w !! id with
           | Some _ =>
               (Throw (Error "D1_ERROR: UNIQUE constraint failed: generations.id"), w)
           | None =>
               (Ok tt,
                set_generations
                  (<[id := GenerationRow user_id project_id prompt type framework
                             "processing" None None None created_at None]>
                     (generations w)) w)
           end)
  end.

(** [UPDATE generations SET status = 'completed', result = ?, files = ?,
    completed_at = ? WHERE id = ?]; [result] and [files] are what
    [JSON.stringify] returned, [None] being [undefined]. *)
Definition update_completed (e : Env) (result files : option string)
    (completed_at id : string) : M unit :=
  match result, files with
  | Some _, Some _ =>
      db e (DbUpdateCompleted id)
        (fun w =>
           (Ok tt,
            set_generations
              (alter (fun r => GenerationRow (g_user_id r) (g_project_id r) (g_prompt r)
                                 (g_type r) (g_framework r) "completed" result files
                                 (g_error r) (g_created_at r) (Some completed_at))
                     id (generations w)) w))
  | _, _ => throw bind_undefined
  end.

(** [UPDATE users SET generations_used = generations_used + 1 WHERE id = ?] *)
Definition increment_usage (e : Env) (user_id : string) : M unit :=
  db e (DbIncrementUsage user_id)
    (fun w =>
       (Ok tt,
        set_users
          (alter (fun u => UserRow (generations_used u + 1) (generations_limit u))
                 user_id (users w)) w)).

(** [UPDATE generations SET status = "failed", error = ? WHERE id = ?] *)
Definition update_failed (e : Env) (error id : string) : M unit :=
  db e (DbUpdateFailed id)
    (fun w =>
       (Ok tt,
        set_generations
          (alter (fun r => GenerationRow (g_user_id r) (g_project_id r) (g_prompt r)
                             (g_type r) (g_framework r) "failed" (g_result r)
                             (g_files r) (Some error) (g_created_at r)
                             (g_completed_at r))
                 id (generations w)) w)).

(** [STORAGE.put(key, content, { httpMetadata: { contentType } })] *)
Definition storage_put (e : Env) (key : string) (content content_type : jsval)
  : M unit :=
  do_ emit (StoragePut key);
  match put_error e key with
  | Some x => throw x
  | None => fun w => (Ok tt, set_storage (<[key := Blob content content_type]> (storage w)) w)
  end.

(** [fetch('https://api.v0.dev/generate', ...)] *)
Definition fetch_v0 (e : Env) : M (bool * Z * string) :=
  do_ emit FetchV0;
  match v0_fetch e with
  | FetchThrows x => throw x
  | FetchResponse ok status body => ret (ok, status, body)
  end.

(** [env.AI.run('@cf/meta/llama-2-7b-chat-fp16', ...)] *)
Definition run_ai (e : Env) : M (option string) :=
  do_ emit AiRun;
  match ai_run e with
  | AiThrows x => throw x
  | AiReturns response => ret response
  end.

End Bindings.
Export Bindings.

(** ** [services/ai-service.ts] *)

Module AiService.

Definition attr (v : string) : string := dq +:+ v +:+ dq.

(** The text of the template literal of [generateFallbackCode] between its
    two interpolations of [prompt], and after the second one. *)
Definition fallback_middle : string :=
"
import React from 'react'

interface Props {
  // Add your props here
}

export default function GeneratedComponent(props: Props) {
  return (
    <div className=" +:+ attr "p-4" +:+ ">
      <h1 className=" +:+ attr "text-2xl font-bold text-gray-900" +:+ ">
        Generated Component
      </h1>
      <p className=" +:+ attr "mt-2 text-gray-600" +:+ ">
        This component was generated based on your prompt: " +:+ dq.

Definition fallback_tail : string :=
dq +:+ "
      </p>
      <div className=" +:+ attr "mt-4 p-4 bg-blue-50 rounded-lg" +:+ ">
        <p className=" +:+ attr "text-sm text-blue-600" +:+ ">
          Type: {type} | Framework: {framework}
        </p>
      </div>
    </div>
  )
}".

Definition generateFallbackCode (prompt type framework : string) : string :=
  "// Generated component based on: " +:+ prompt +:+ fallback_middle
    +:+ prompt +:+ fallback_tail.

(** The object [generateCode] returns when no pattern matches. *)
Definition basic_structure (prompt type framework : string) : jsval :=
  JObj [("files",
         JArr [JObj [("name", JStr "component.tsx");
                     ("content", JStr (generateFallbackCode prompt type framework));
                     ("type", JStr "text/tsx")]]);
        ("description", JStr "Basic component generated");
        ("instructions", JStr "Install dependencies and run the development server")].

(** [aiText.match(fence pattern) || aiText.match(brace pattern)] *)
Definition jsonMatch (aiText : string) : option Regex.match_result :=
  match Regex.match_fence aiText with
  | Some m => Some m
  | None => Regex.match_braces aiText
  end.

(** [jsonMatch[1] || jsonMatch[0]] *)
Definition matched_text (m : Regex.match_result) : string :=
  match Regex.group1 m with
  | Some g => if String.eqb g "" then Regex.whole m else g
  | None => Regex.whole m
  end.

Definition JSON_parse (s : string) : M jsval :=
  lift_option (Json.parse s) (SyntaxError "Unexpected token in JSON").

Definition generateCode (prompt type framework : string) (e : Env) : M jsval :=
  try_catch
    (do response <- run_ai e;
     do aiText <- lift_option response
                    (TypeError "Cannot read properties of undefined (reading 'match')");
     match jsonMatch aiText with
     | Some m => JSON_parse (matched_text m)
     | None => ret (basic_structure prompt type framework)
     end)
    (fun error => throw (Error "AI code generation failed")).

End AiService.
Export AiService.

(** ** [services/v0-service.ts] *)

Module V0Service.

Definition lower (c : ascii) : ascii :=
  let n := Json.code c in
  if (65 <=? n)%Z && (n <=? 90)%Z then Json.chr (n + 32) else c.

Fixpoint toLowerCase (s : string) : string :=
  match s with
  | EmptyString => ""
  | String c r => String (lower c) (toLowerCase r)
  end.

(** [filename.split('.').pop()]: what follows the last dot, the whole name
    when it has none; [acc] is the segment read so far. *)
Fixpoint last_segment (s acc : string) : string :=
  match s with
  | EmptyString => acc
  | String c r =>
      if Ascii.eqb c "." then last_segment r ""
      else last_segment r (acc +:+ String c "")
  end.

(** [typeMap[ext]]: the eight own properties, and the two properties that
    the object inherits under an all-lowercase name. *)
Definition typeMap (ext : string) : jsval :=
  if String.eqb ext "tsx" then JStr "text/tsx"
  else if String.eqb ext "ts" then JStr "text/typescript"
  else if String.eqb ext "jsx" then JStr "text/jsx"
  else if String.eqb ext "js" then JStr "text/javascript"
  else if String.eqb ext "css" then JStr "text/css"
  else if String.eqb ext "html" then JStr "text/html"
  else if String.eqb ext "json" then JStr "application/json"
  else if String.eqb ext "md" then JStr "text/markdown"
  else if String.eqb ext "constructor" then JFun "Object"
  else if String.eqb ext "__proto__" then JObj []
  else JUndefined.

Definition getFileType (filename : string) : jsval :=
  let ext := toLowerCase (last_segment filename "") in
  js_or (typeMap ext) (JStr "text/plain").

(** The callback of [result.files?.map]. *)
Definition transform_file (file : jsval) : outcome jsval :=
  match prop file "name", prop file "content" with
  | Some name, Some content =>
      match name with
      | JStr filename =>
          Ok (JObj [("name", name); ("content", content);
                    ("type", getFileType filename)])
      | JUndefined | JNull => Throw (cannot_read name "split")
      | _ => Throw (TypeError "filename.split is not a function")
      end
  | _, _ => Throw (cannot_read file "name")
  end.

Fixpoint map_files (files : list jsval) : outcome (list jsval) :=
  match files with
  | [] => Ok []
  | file :: rest =>
      match transform_file file with
      | Throw x => Throw x
      | Ok f =>
          match map_files rest with
          | Throw x => Throw x
          | Ok fs => Ok (f :: fs)
          end
      end
  end.

(** [result.files?.map(...) || []] *)
Definition transform_files (result : jsval) : outcome jsval :=
  match prop result "files" with
  | None => Throw (cannot_read result "files")
  | Some (JUndefined | JNull) => Ok (JArr [])
  | Some (JArr items) =>
      match map_files items with
      | Ok fs => Ok (JArr fs)
      | Throw x => Throw x
      end
  | Some _ => Throw (TypeError "result.files?.map is not a function")
  end.

Definition transform (result : jsval) : outcome jsval :=
  match transform_files result with
  | Throw x => Throw x
  | Ok files =>
      Ok (JObj [("files", files);
                ("description",
                 js_or (default JUndefined (prop result "description"))
                       (JStr "Generated with v0"));
                ("instructions",
                 js_or (default JUndefined (prop result "instructions"))
                       (JStr "Standard React component setup"))])
  end.

Definition key_missing (k : option string) : bool :=
  match k with
  | None => true
  | Some s => String.eqb s ""
  end.

Definition callV0API (prompt type framework : string) (e : Env) : M jsval :=
  if key_missing (V0_API_KEY e) then throw (Error "v0 API key not configured")
  else
    try_catch
      (do response <- fetch_v0 e;
       let '(ok, status, body) := response in
       if negb ok then
         throw (Error ("v0 API error: " +:+ pretty status +:+ " " +:+ body))
       else
         do result <- JSON_parse body;
         fun w => (transform result, w))
      (fun error => throw error).

End V0Service.
Export V0Service.

(** ** [routes/generation.ts] *)

Module Generation.

(** The validated JSON body, [c.req.valid('json')]. *)
Record request : Type := Request {
  prompt : string;
  type : string;
  framework : option string;
  projectId : option string
}.

(** The Hono context of one request: the validated body, the [userId] the
    authentication middleware stored, the query string and the bindings. *)
Record context : Type := Context {
  body : request;
  userId : string;
  query : string -> option string;
  env : Env
}.

(** [c.json(value, status)] *)
Record response : Type := Response { status : Z; json : jsval }.

(** The globals of the Workers runtime that the module mentions. *)
Definition runtime_globals : list (string * jsval) :=
  [("console", JObj []); ("JSON", JObj []); ("Math", JObj []);
   ("Date", JFun "Date"); ("Error", JFun "Error"); ("parseInt", JFun "parseInt");
   ("fetch", JFun "fetch"); ("crypto", JObj [])].

(** The names bound at module level of [generation.ts], its imports and
    its two constants, on top of the globals. *)
Definition module_scope : gmap string jsval :=
  list_to_map
    ([("Hono", JFun "Hono"); ("zValidator", JFun "zValidator"); ("z", JObj []);
      ("generateCode", JFun "generateCode"); ("callV0API", JFun "callV0API");
      ("generationRouter", JObj []); ("generateSchema", JObj [])]
       ++ runtime_globals).

Definition of_option (o : option string) : jsval :=
  match o with Some s => JStr s | None => JUndefined end.

(** [framework = 'react'] in the destructuring of the body. *)
Definition framework_of (r : request) : string := default "react" (framework r).

(** The scope in which the body of the POST handler runs: the module's
    names, the parameter [c] and the constants the handler declares before
    its [try]. *)
Definition handler_scope (c : context) : gmap string jsval :=
  <["c" := JObj []]>
    (<["prompt" := JStr (prompt (body c))]>
       (<["type" := JStr (type (body c))]>
          (<["framework" := JStr (framework_of (body c))]>
             (<["projectId" := of_option (projectId (body c))]>
                (<["userId" := JStr (userId c)]> module_scope))))).

(** Evaluation of an identifier that the enclosing function does not
    declare: it is looked up in the surrounding scope, and a name bound
    nowhere throws a ReferenceError. *)
Definition read_var (scope : gmap string jsval) (x : string) : M jsval :=
  lift_option (scope !! x) (ReferenceError (x +:+ " is not defined")).

(** Lines 56-62: the primary provider, and the fallback in its [catch]. *)
Definition provider_step (prompt type framework : string) (e : Env) : M jsval :=
  try_catch (callV0API prompt type framework e)
            (fun v0Error => generateCode prompt type framework e).

Fixpoint chars (s : string) : list jsval :=
  match s with
  | EmptyString => []
  | String c r => JStr (String c "") :: chars r
  end.

(** [const files = generatedCode.files || []], and what [for ... of]
    iterates over. *)
Definition files_of (generatedCode : jsval) : M (list jsval) :=
  match prop generatedCode "files" with
  | None => throw (cannot_read generatedCode "files")
  | Some v =>
      match js_or v (JArr []) with
      | JArr items => ret items
      | JStr s => ret (chars s)
      | _ => throw (TypeError "files is not iterable")
      end
  end.

Definition storage_host : string := "https://storage.thisaicodes.com/".

(** Lines 68-82, the loop over [files]; [fileUrls] is the array the loop
    pushes to.  [generationId] is read where the template literal of
    [fileKey] evaluates it. *)
Fixpoint store_files (scope : gmap string jsval) (e : Env) (files fileUrls : list jsval)
  : M (list jsval) :=
  match files with
  | [] => ret fileUrls
  | file :: rest =>
      do generationId <- read_var scope "generationId";
      do name <- lift_option (prop file "name") (cannot_read file "name");
      let fileKey :=
        "generations/" +:+ to_string generationId +:+ "/" +:+ to_string name in
      let content := default JUndefined (prop file "content") in
      let type := default JUndefined (prop file "type") in
      do_ storage_put e fileKey content (js_or type (JStr "text/plain"));
      store_files scope e rest
        (fileUrls ++ [JObj [("name", name);
                            ("url", JStr (storage_host +:+ fileKey));
                            ("type", type)]])
  end.

Definition limit_reached : response :=
  Response 429
    (JObj [("error", JStr "Generation limit reached. Upgrade your plan to continue.")]).

Definition generation_failed : response :=
  Response 500 (JObj [("error", JStr "Code generation failed")]).

(** The [try] block of the POST /generate handler, lines 27-107, in the
    scope [scope].  The handler declares no [generationId]: each use of that
    identifier is a [read_var]. *)
Definition generate_try (scope : gmap string jsval) (c : context) : M response :=
  let prompt := prompt (body c) in
  let type := type (body c) in
  let framework := framework_of (body c) in
  let projectId := of_option (projectId (body c)) in
  let userId := userId c in
  let e := env c in
  do user <- select_user e userId;
  do user <- lift_option user
               (TypeError "Cannot read properties of null (reading 'generations_used')");
  if (generations_limit user <=? generations_used user)%Z then ret limit_reached
  else
    do generationId <- read_var scope "generationId";
    do_ insert_generation e (to_string generationId) userId projectId
          prompt type framework (now e 0);
    do generatedCode <- provider_step prompt type framework e;
    do files <- files_of generatedCode;
    do fileUrls <- store_files scope e files [];
    do generationId <- read_var scope "generationId";
    do_ update_completed e (Json.stringify generatedCode)
          (Json.stringify (JArr fileUrls)) (now e 1) (to_string generationId);
    do_ increment_usage e userId;
    do generationId <- read_var scope "generationId";
    ret (Response 200
           (JObj [("generationId", generationId); ("code", generatedCode);
                  ("files", JArr fileUrls);
                  ("message", JStr "Code generated successfully")])).

(** The [catch] block, lines 108-117. *)
Definition generate_catch (scope : gmap string jsval) (c : context) (error : exn)
  : M response :=
  do generationId <- read_var scope "generationId";
  do_ update_failed (env c) (message error) (to_string generationId);
  ret generation_failed.

(** The body of the handler, lines 24-117, in the scope [scope]. *)
Definition generate_in (scope : gmap string jsval) (c : context) : M response :=
  try_catch (generate_try scope c) (generate_catch scope c).

(** What evaluating [generationId] throws in a scope that does not bind it. *)
Definition generationId_undefined : exn :=
  ReferenceError "generationId is not defined".

(** [generationRouter.post('/generate', ...)]: the handler in its scope. *)
Definition post_generate (c : context) : M response :=
  generate_in (handler_scope c) c.

(** [c.req.query(name) || fallback] *)
Definition query_or (c : context) (name fallback : string) : string :=
  match query c name with
  | Some s => if String.eqb s "" then fallback else s
  | None => fallback
  end.

(** GET /history, lines 124-126. *)
Definition history_page (c : context) : Num.num :=
  Num.parseInt (query_or c "page" "1").

Definition history_limit (c : context) : Num.num :=
  Num.min (Num.parseInt (query_or c "limit" "10")) (Some (Num.Fin 50)).

Definition history_offset (c : context) : Num.num :=
  Num.mul (Num.sub (history_page c) (Some (Num.Fin 1))) (history_limit c).

(** The values bound to [WHERE user_id = ? ... LIMIT ? OFFSET ?]. *)
Definition history_bindings (c : context) : string * Num.num * Num.num :=
  (userId c, history_limit c, history_offset c).

End Generation.
Export Generation.

(** ** Observations and sample inputs *)

Module Scenario.

(** The message of an error response. *)
Definition error_message (r : response) : option string :=
  match prop (json r) "error" with
  | Some (JStr msg) => Some msg
  | _ => None
  end.

Definition is_throw {A} (o : outcome A) : bool :=
  match o with Throw _ => true | Ok _ => false end.

(** What [generateCode] makes of the text it hands to [JSON.parse]. *)
Definition parse_or_fail (s : string) : outcome jsval :=
  match Json.parse s with
  | Some v => Ok v
  | None => Throw (Error "AI code generation failed")
  end.

Definition is_object (o : option jsval) : bool :=
  match o with Some (JObj _) => true | _ => false end.

(** The non-empty substrings of [s]. *)
Definition substrings (s : string) : list string :=
  flat_map (fun i => map (fun n => String.substring i n s)
                         (seq 1 (String.length s - i)))
           (seq 0 (String.length s)).

(** The text has an opening brace with a closing brace somewhere after
    it; the text has an opening json fence with another fence somewhere
    after it. *)
Definition brace_pair (s : string) : Prop :=
  exists a b : string, s = a +:+ "{" +:+ b /\ includes "}" b.

Definition fenced_block (s : string) : Prop :=
  exists a b : string, s = a +:+ "```json" +:+ b /\ includes "```" b.

(** Some substring of [s] is the text of a JSON object. *)
Definition contains_json_object (s : string) : bool :=
  existsb (fun t => is_object (Json.parse t)) (substrings s).

(** The JSON text of an object with one file, [a.tsx] with content [X]. *)
Definition one_file : string :=
  "{" +:+ Json.quote "files" +:+ ":[{" +:+ Json.quote "name" +:+ ":"
      +:+ Json.quote "a.tsx" +:+ "," +:+ Json.quote "content" +:+ ":"
      +:+ Json.quote "X" +:+ "}]}".

Definition clock (n : nat) : string := "2024-05-01T10:00:0" +:+ pretty n +:+ ".000Z".

(** Both providers answer, nothing rejects. *)
Definition healthy : Env :=
  MkEnv (Some "v0-key") (FetchResponse true 200 one_file) (AiReturns (Some one_file))
        (fun _ => None) (fun _ => None) clock.


(** The primary provider answers with an object without [files]. *)
Definition no_files : Env :=
  MkEnv (Some "v0-key") (FetchResponse true 200 "{}") (AiReturns (Some one_file))
        (fun _ => None) (fun _ => None) clock.

(** The fallback model answers with the text [reply]. *)
Definition model_says (reply : string) : Env :=
  MkEnv None (FetchThrows (TypeError "fetch failed")) (AiReturns (Some reply))
        (fun _ => None) (fun _ => None) clock.

(** One account, with [used] generations out of three. *)
Definition account (used : Z) : world :=
  MkWorld {["u1" := UserRow used 3]} ∅ ∅ [].

Definition pricing_page : request :=
  Request "Build a pricing page" "page" None None.

Definition call (e : Env) : context :=
  Context pricing_page "u1" (fun _ => None) e.

(** Calls that write the status of a generations row. *)
Definition writes_status (ev : event) : bool :=
  match ev with
  | DbInsertGeneration _ | DbUpdateCompleted _ | DbUpdateFailed _ => true
  | _ => false
  end.

Definition status_writes (w : world) : list event :=
  List.filter writes_status (log w).

End Scenario.
Export Scenario.

(** ** [routes/generation.ts]: GET /:id *)

Module Detail.

(** A nullable TEXT column as [first()] returns it. *)
Definition nullable (o : option string) : jsval :=
  match o with Some s => JStr s | None => JNull end.

(** The object [first()] returns for a row of [SELECT * FROM generations],
    with the columns in the order of the table. *)
Definition row_object (id : string) (r : generation_row) : jsval :=
  JObj [("id", JStr id); ("user_id", JStr (g_user_id r));
        ("project_id", g_project_id r); ("prompt", JStr (g_prompt r));
        ("type", JStr (g_type r)); ("framework", JStr (g_framework r));
        ("status", JStr (g_status r)); ("result", nullable (g_result r));
        ("files", nullable (g_files r)); ("error", nullable (g_error r));
        ("created_at", JStr (g_created_at r));
        ("completed_at", nullable (g_completed_at r))].

(** [SELECT * FROM generations WHERE id = ? AND user_id = ?], [first()];
    [id] is the primary key. *)
Definition select_generation (w : world) (id user_id : string)
  : option generation_row :=
  match generations w !! id with
  | Some r => if String.eqb (g_user_id r) user_id then Some r else None
  | None => None
  end.

Definition not_found : response :=
  Response 404 (JObj [("error", JStr "Generation not found")]).

Definition fetch_failed : response :=
  Response 500 (JObj [("error", JStr "Failed to fetch generation")]).

(** [generationRouter.get('/:id', ...)], lines 158-178.  The handler makes
    one SELECT and writes nothing; [db_fault] is the error with which the
    statement rejects, if it does. *)
Definition get_generation (db_fault : option exn) (generationId userId : string)
    (w : world) : response :=
  match db_fault with
  | Some error => fetch_failed
  | None =>
      match select_generation w generationId userId with
      | None => not_found
      | Some generation =>
          Response 200 (JObj [("generation", row_object generationId generation)])
      end
  end.

End Detail.
Export Detail.

(** ** [routes/generation.ts]: the query of GET /history *)

Module HistoryQuery.

(** SQLite takes a bound number as a LIMIT or an OFFSET when it converts to
    a 64-bit integer without loss; the statement fails otherwise, as it
    does for [NaN] and the infinities. *)
Definition as_int64 (n : Num.num) : option Z :=
  match n with
  | Some (Num.Fin z) =>
      if (- 2 ^ 63 <=? z)%Z && (z <? 2 ^ 63)%Z then Some z else None
  | _ => None
  end.

(** How many of [n] rows [LIMIT limit OFFSET offset] keeps: a negative
    OFFSET counts as zero, and a negative LIMIT is no limit. *)
Definition limit_offset (n limit offset : Z) : Z :=
  let rest := Z.max 0 (n - Z.max 0 offset) in
  if (limit <? 0)%Z then rest else Z.min limit rest.

(** The number of rows with [user_id = ?]. *)
Definition rows_of (w : world) (user_id : string) : Z :=
  Z.of_nat (List.length
              (List.filter (fun kr => String.eqb (g_user_id (snd kr)) user_id)
                           (map_to_list (generations w)))).

(** The number of rows of [generations.results], lines 129-135, when the
    database answers; [None] when the statement fails. *)
Definition history_rows (c : context) (w : world) : option Z :=
  match as_int64 (history_limit c), as_int64 (history_offset c) with
  | Some limit, Some offset => Some (limit_offset (rows_of w (userId c)) limit offset)
  | _, _ => None
  end.

End HistoryQuery.
Export HistoryQuery.

(** ** Predicates on texts *)

Module Text.

(** The character [c] occurs in [s]. *)
Fixpoint mentions (c : ascii) (s : string) : bool :=
  match s with
  | EmptyString => false
  | String d r => Ascii.eqb d c || mentions c r
  end.

(** [s] consists of white space only. *)
Fixpoint all_space (s : string) : bool :=
  match s with
  | EmptyString => true
  | String c r => Regex.is_space c && all_space r
  end.

(** A file entry of a provider response has a string [name]. *)
Definition named (file : jsval) : bool :=
  match prop file "name" with
  | Some (JStr _) => true
  | _ => false
  end.

(** The nine content types [getFileType] can name. *)
Definition known_types : list string :=
  ["text/tsx"; "text/typescript"; "text/jsx"; "text/javascript"; "text/css";
   "text/html"; "application/json"; "text/markdown"; "text/plain"].

End Text.
Export Text.

(** ** More sample inputs *)

Module Samples.

(** The JSON text of a v0 answer with two files, the second without a
    name. *)
Definition unnamed_file : string :=
  "{" +:+ Json.quote "files" +:+ ":[{" +:+ Json.quote "name" +:+ ":"
      +:+ Json.quote "a.tsx" +:+ "},{" +:+ Json.quote "content" +:+ ":"
      +:+ Json.quote "X" +:+ "}]}".

(** The primary provider answers with [unnamed_file]. *)
Definition primary_unnamed : Env :=
  MkEnv (Some "v0-key") (FetchResponse true 200 unnamed_file)
        (AiReturns (Some one_file)) (fun _ => None) (fun _ => None) clock.

(** The text of [one_file] between its outer braces, and a reply of the
    model that wraps [one_file] in prose. *)
Definition one_file_inner : string :=
  Json.quote "files" +:+ ":[{" +:+ Json.quote "name" +:+ ":"
    +:+ Json.quote "a.tsx" +:+ "," +:+ Json.quote "content" +:+ ":"
    +:+ Json.quote "X" +:+ "}]".

Definition chatty_reply : string :=
  "Sure! Here is the code: " +:+ one_file +:+ " Let me know if it helps.".

(** A reply of the model with [one_file] in a json fence. *)
Definition fenced_reply : string :=
  "Here you go:
```json
" +:+ one_file +:+ "
```
Paste it into `src/` and run the {dev} server.".

(** A generations row of user [owner]. *)
Definition row_of (owner : string) : generation_row :=
  GenerationRow owner JNull "Build a pricing page" "page" "react" "completed"
                (Some "{}") (Some "[]") None (clock 0) (Some (clock 1)).

(** One generation, [g-1], of user [u1]. *)
Definition one_generation : world :=
  MkWorld {["u1" := UserRow 1 3]} {["g-1" := row_of "u1"]} ∅ [].

(** Fifty-one generations of user [u1]. *)
Definition fifty_one : world :=
  MkWorld {["u1" := UserRow 3 3]}
          (list_to_map (map (fun i => ("g-" +:+ pretty i, row_of "u1")) (seq 0 51)))
          ∅ [].

(** A request to GET /history with the given [page] and [limit]. *)
Definition history_call (page limit : string) : context :=
  Context pricing_page "u1"
    (fun name => if String.eqb name "page" then Some page
                 else if String.eqb name "limit" then Some limit else None)
    healthy.

End Samples.
Export Samples.

(** ** The accounts behind [routes/auth.ts] *)

Module Accounts.

(** A row of the [users] table: the columns the authentication routes
    read or write.  [a_email_verified] is the INTEGER column, 0 by default. *)
Record user_account : Type := UserAccount {
  a_id : string;
  a_email : string;
  a_password_hash : string;
  a_name : string;
  a_email_verified : Z;
  a_verification_token : option string;
  a_email_verified_at : option string;
  a_last_login_at : option string;
  a_created_at : string;
  a_deleted_at : option string
}.

(** A message posted to the Resend endpoint: the recipient, the subject and
    the link that the HTML template of the message is built around. *)
Record mail : Type := Mail { mail_to : string; mail_subject : string; mail_link : string }.

(** The [users] table in the order of insertion, and the requests made to
    the mail provider. *)
Record auth_world : Type := AuthWorld {
  accounts : list user_account;
  mails : list mail
}.

Definition set_accounts (l : list user_account) (s : auth_world) : auth_world :=
  AuthWorld l (mails s).

(** The statements of the authentication routes. *)
Inductive statement : Type :=
| SelectByEmail
| InsertUser
| SelectActiveByEmail
| UpdateLastLogin
| SelectByToken
| UpdateVerified.

(** The services behind one request to an authentication route: a
    statement rejects when [statement_error] gives an error; [bcrypt_hash]
    and [bcrypt_compare] are [bcrypt.hash(password, 12)] and
    [bcrypt.compare]; [randomUUID n] is what the [n]-th call of
    [crypto.randomUUID()] returns; [jwt_sign] is [jwt.sign] with the
    secret and the options of the login route; [resend_fetch] is what
    [fetch] to the Resend endpoint does; [last_row_id] is the
    [meta.last_row_id] of the INSERT; [today] is [new Date().toISOString()]. *)
Record AuthEnv : Type := MkAuthEnv {
  statement_error : statement -> option exn;
  bcrypt_hash : string -> string;
  bcrypt_compare : string -> string -> bool;
  randomUUID : nat -> string;
  jwt_sign : jsval -> outcome string;
  resend_fetch : fetch_outcome;
  last_row_id : Z;
  today : string
}.

Definition AuthM (T : Type) : Type := auth_world -> outcome T * auth_world.

Definition areturn {T} (a : T) : AuthM T := fun s => (Ok a, s).
Definition athrow {T} (x : exn) : AuthM T := fun s => (Throw x, s).
Definition abind {T U} (c : AuthM T) (k : T -> AuthM U) : AuthM U :=
  fun s => match c s with
           | (Ok a, s') => k a s'
           | (Throw x, s') => (Throw x, s')
           end.

(** [try { c } catch (x) { h x }] *)
Definition acatch {T} (c : AuthM T) (h : exn -> AuthM T) : AuthM T :=
  fun s => match c s with
           | (Ok a, s') => (Ok a, s')
           | (Throw x, s') => h x s'
           end.

Definition of_outcome {T} (o : outcome T) : AuthM T := fun s => (o, s).

(** A prepared statement's [run] or [first]. *)
Definition run {T} (e : AuthEnv) (st : statement) (effect : AuthM T) : AuthM T :=
  match statement_error e st with
  | Some x => athrow x
  | None => effect
  end.

End Accounts.
Export Accounts.

Declare Scope auth_scope.
Delimit Scope auth_scope with auth.
Notation "'do' x <- c1 ; c2" := (abind c1 (fun x => c2))
  (at level 10, x name, c1 at level 100, c2 at level 200) : auth_scope.
Notation "'do_' c1 ; c2" := (abind c1 (fun _ => c2))
  (at level 10, c1 at level 100, c2 at level 200) : auth_scope.

(** ** [services/email-service.ts] *)

Module EmailService.

#[local] Open Scope auth_scope.

(** [fetch('https://api.resend.com/emails', ...)] for the message [m],
    and the check of [response.ok] that follows it. *)
Definition post_mail (e : AuthEnv) (m : mail) : AuthM unit :=
  fun s =>
    (match resend_fetch e with
     | FetchThrows x => Throw x
     | FetchResponse ok status error =>
         if negb ok then Throw (Error ("Email service error: " +:+ error))
         else Ok tt
     end,
     AuthWorld (accounts s) (mails s ++ [m])).

Definition sendVerificationEmail (email token : string) (e : AuthEnv) : AuthM unit :=
  let verificationUrl := "https://thisaicodes.com/auth/verify?token=" +:+ token in
  acatch (post_mail e (Mail email "Verify your ThisAICodes account" verificationUrl))
         (fun error => athrow (Error "Failed to send verification email")).

Definition sendPasswordResetEmail (email token : string) (e : AuthEnv) : AuthM unit :=
  let resetUrl := "https://thisaicodes.com/auth/reset-password?token=" +:+ token in
  acatch (post_mail e (Mail email "Reset your ThisAICodes password" resetUrl))
         (fun error => athrow (Error "Failed to send password reset email")).

End EmailService.
Export EmailService.

(** ** [routes/auth.ts] *)

Module Auth.

#[local] Open Scope auth_scope.

Definition internal_error : response :=
  Response 500 (JObj [("error", JStr "Internal server error")]).

(** [SELECT id FROM users WHERE email = ?], [first()] *)
Definition select_by_email (e : AuthEnv) (email : string)
  : AuthM (option user_account) :=
  run e SelectByEmail
    (fun s => (Ok (find (fun u => String.eqb (a_email u) email) (accounts s)), s)).

(** [INSERT INTO users (id, email, password_hash, name, verification_token,
    created_at) VALUES (?, ?, ?, ?, ?, ?)]: [id] is the primary key and
    [email] is UNIQUE; the other columns take their defaults. *)
Definition insert_user (e : AuthEnv)
    (id email password_hash name verification_token created_at : string)
  : AuthM unit :=
  run e InsertUser
    (fun s =>
       if existsb (fun u => String.eqb (a_id u) id) (accounts s) then
         (Throw (Error "D1_ERROR: UNIQUE constraint failed: users.id"), s)
       else if existsb (fun u => String.eqb (a_email u) email) (accounts s) then
         (Throw (Error "D1_ERROR: UNIQUE constraint failed: users.email"), s)
       else
         (Ok tt,
          set_accounts
            (accounts s ++ [UserAccount id email password_hash name 0
                              (Some verification_token) None None created_at None])
            s)).

Definition user_exists : response :=
  Response 400 (JObj [("error", JStr "User already exists")]).

Definition registered (e : AuthEnv) : response :=
  Response 200
    (JObj [("message",
            JStr "Registration successful. Please check your email to verify your account.");
           ("userId", JNum (last_row_id e) 0)]).

(** POST /auth/register, lines 1264-1312. *)
Definition register (e : AuthEnv) (email password name : string) : AuthM response :=
  acatch
    (do existingUser <- select_by_email e email;
     match existingUser with
     | Some _ => areturn user_exists
     | None =>
         let hashedPassword := bcrypt_hash e password in
         let verificationToken := randomUUID e 0 in
         do_ insert_user e (randomUUID e 1) email hashedPassword name
               verificationToken (today e);
         do_ sendVerificationEmail email verificationToken e;
         areturn (registered e)
     end)
    (fun error => areturn internal_error).

(** [SELECT id, email, password_hash, name, email_verified, created_at FROM
    users WHERE email = ? AND deleted_at IS NULL], [first()] *)
Definition active (email : string) (u : user_account) : bool :=
  String.eqb (a_email u) email
  && match a_deleted_at u with None => true | Some _ => false end.

Definition select_active_by_email (e : AuthEnv) (email : string)
  : AuthM (option user_account) :=
  run e SelectActiveByEmail (fun s => (Ok (find (active email) (accounts s)), s)).

(** [UPDATE users SET last_login_at = ? WHERE id = ?] *)
Definition logged_in (at_ : string) (u : user_account) : user_account :=
  UserAccount (a_id u) (a_email u) (a_password_hash u) (a_name u) (a_email_verified u)
          (a_verification_token u) (a_email_verified_at u) (Some at_)
          (a_created_at u) (a_deleted_at u).

Definition update_where_id (f : user_account -> user_account) (id : string)
    (l : list user_account) : list user_account :=
  map (fun u => if String.eqb (a_id u) id then f u else u) l.

Definition update_last_login (e : AuthEnv) (at_ id : string) : AuthM unit :=
  run e UpdateLastLogin
    (fun s => (Ok tt, set_accounts (update_where_id (logged_in at_) id (accounts s)) s)).

Definition invalid_credentials : response :=
  Response 401 (JObj [("error", JStr "Invalid credentials")]).

Definition unverified : response :=
  Response 403 (JObj [("error", JStr "Please verify your email before logging in")]).

(** The payload of the token and the body of the answer to a login. *)
Definition token_payload (user : user_account) : jsval :=
  JObj [("userId", JStr (a_id user)); ("email", JStr (a_email user));
        ("name", JStr (a_name user))].

Definition session (token : string) (user : user_account) : response :=
  Response 200
    (JObj [("token", JStr token);
           ("user", JObj [("id", JStr (a_id user)); ("email", JStr (a_email user));
                          ("name", JStr (a_name user));
                          ("createdAt", JStr (a_created_at user))])]).

(** POST /auth/login, lines 1319-1374. *)
Definition login (e : AuthEnv) (email password : string) : AuthM response :=
  acatch
    (do user <- select_active_by_email e email;
     match user with
     | None => areturn invalid_credentials
     | Some user =>
         let validPassword := bcrypt_compare e password (a_password_hash user) in
         if negb validPassword then areturn invalid_credentials
         else if (a_email_verified user =? 0)%Z then areturn unverified
         else
           do token <- of_outcome (jwt_sign e (token_payload user));
           do_ update_last_login e (today e) (a_id user);
           areturn (session token user)
     end)
    (fun error => areturn internal_error).

(** [SELECT id FROM users WHERE verification_token = ? AND email_verified = 0],
    [first()]; a NULL token equals nothing. *)
Definition pending (token : string) (u : user_account) : bool :=
  match a_verification_token u with
  | Some t => String.eqb t token
  | None => false
  end
  && (a_email_verified u =? 0)%Z.

Definition select_by_token (e : AuthEnv) (token : string)
  : AuthM (option user_account) :=
  run e SelectByToken (fun s => (Ok (find (pending token) (accounts s)), s)).

(** [UPDATE users SET email_verified = 1, verification_token = NULL,
    email_verified_at = ? WHERE id = ?] *)
Definition verified (at_ : string) (u : user_account) : user_account :=
  UserAccount (a_id u) (a_email u) (a_password_hash u) (a_name u) 1 None (Some at_)
          (a_last_login_at u) (a_created_at u) (a_deleted_at u).

Definition update_verified (e : AuthEnv) (at_ id : string) : AuthM unit :=
  run e UpdateVerified
    (fun s => (Ok tt, set_accounts (update_where_id (verified at_) id (accounts s)) s)).

Definition invalid_token : response :=
  Response 400 (JObj [("error", JStr "Invalid or expired verification token")]).

Definition email_verified : response :=
  Response 200 (JObj [("message", JStr "Email verified successfully")]).

(** POST /auth/verify-email, lines 1380-1405. *)
Definition verify_email (e : AuthEnv) (token : string) : AuthM response :=
  acatch
    (do user <- select_by_token e token;
     match user with
     | None => areturn invalid_token
     | Some user =>
         do_ update_verified e (today e) (a_id user);
         areturn email_verified
     end)
    (fun error => areturn internal_error).

End Auth.
Export Auth.

(** ** Sample accounts *)

Module AuthSamples.

(** Services that answer: the hash of a password is the password behind a
    fixed prefix, the [n]-th UUID is [uuid-n] and a token is the user id
    behind [jwt:]. *)
Definition services (mail : fetch_outcome) : AuthEnv :=
  MkAuthEnv (fun _ => None)
            (fun password => "$2a$12$" +:+ password)
            (fun password hash => String.eqb hash ("$2a$12$" +:+ password))
            (fun n => "uuid-" +:+ pretty n)
            (fun payload => Ok ("jwt:" +:+ to_string (default JUndefined (prop payload "userId"))))
            mail 1 "2024-05-01T10:00:00.000Z".

Definition mail_up : AuthEnv := services (FetchResponse true 200 "{}").

Definition mail_down : AuthEnv :=
  services (FetchResponse false 503 "Service Unavailable").

(** Ada has verified her address; Bob has not, and holds the token [t-bob]. *)
Definition ada : user_account :=
  UserAccount "id-ada" "ada@example.com" "$2a$12$correct horse" "Ada" 1 None
              (Some "2024-04-01T09:00:00.000Z") None "2024-04-01T08:00:00.000Z" None.

Definition bob : user_account :=
  UserAccount "id-bob" "bob@example.com" "$2a$12$battery staple" "Bob" 0
              (Some "t-bob") None None "2024-04-02T08:00:00.000Z" None.

Definition two_accounts : auth_world := AuthWorld [ada; bob] [].

End AuthSamples.
Export AuthSamples.

(** * Properties *)

(** ** The models of the library functions on sample inputs *)

Example parse_scenario :
  Json.parse ("{" +:+ dq +:+ "files" +:+ dq +:+ ":[{" +:+ dq +:+ "name" +:+ dq
              +:+ ":" +:+ dq +:+ "a.tsx" +:+ dq +:+ "," +:+ dq +:+ "content"
              +:+ dq +:+ ": " +:+ dq +:+ "X" +:+ dq +:+ "}]}")
  = Some (JObj [("files", JArr [JObj [("name", JStr "a.tsx"); ("content", JStr "X")]])]).
Proof. vm_compute. reflexivity. Qed.

Example parse_rejects : Json.parse "{oops}" = None.
Proof. vm_compute. reflexivity. Qed.

Example parse_numbers :
  Json.parse "[1, -2.50e3, 0, 01]" = None /\
  Json.parse " [1, -2.50e3, 0 ] " = Some (JArr [JNum 1 0; JNum (-250) 1; JNum 0 0]).
Proof. vm_compute. split; reflexivity. Qed.

Example stringify_descriptor :
  Json.stringify (JArr [JObj [("name", JStr "a.tsx"); ("type", JUndefined)]; JUndefined])
  = Some ("[{" +:+ dq +:+ "name" +:+ dq +:+ ":" +:+ dq +:+ "a.tsx" +:+ dq +:+ "},null]").
Proof. vm_compute. reflexivity. Qed.

Example fence_example :
  Regex.match_fence "Here: ```json
  {}
``` bye" = Some (Regex.Match "```json
  {}
```" (Some "{}")).
Proof. vm_compute. reflexivity. Qed.

Example fence_empty_group :
  Regex.match_fence "```json ```" = Some (Regex.Match "```json ```" (Some "")).
Proof. vm_compute. reflexivity. Qed.

Example braces_example :
  Regex.match_braces "a } { b } c } d" = Some (Regex.Match "{ b } c }" None).
Proof. vm_compute. reflexivity. Qed.

Example getFileType_examples :
  getFileType "App.TSX" = JStr "text/tsx"
  /\ getFileType "styles/site.css" = JStr "text/css"
  /\ getFileType "README" = JStr "text/plain"
  /\ getFileType "archive.tar.gz" = JStr "text/plain"
  /\ getFileType "a.constructor" = JFun "Object".
Proof. vm_compute. repeat split; reflexivity. Qed.

Example parseInt_examples :
  Num.parseInt "10" = Some (Num.Fin 10) /\ Num.parseInt " -7px" = Some (Num.Fin (-7)) /\
  Num.parseInt "0x1f" = Some (Num.Fin 31) /\ Num.parseInt "abc" = None /\
  Num.parseInt "" = None.
Proof. vm_compute. repeat split; reflexivity. Qed.

(** Beyond 2^53 [parseInt] gives the nearest binary64 number, and an
    infinity for digits that denote 2^1024 or more. *)
Example parseInt_rounds :
  Num.parseInt "9007199254740993" = Some (Num.Fin 9007199254740992)
  /\ Num.parseInt "9007199254740995" = Some (Num.Fin 9007199254740996)
  /\ Num.parseInt (String.concat "" (List.repeat "9" 400)) = Some (Num.Inf false)
  /\ Num.parseInt ("-" +:+ String.concat "" (List.repeat "9" 400)) = Some (Num.Inf true).
Proof. vm_compute. repeat split; reflexivity. Qed.

(** ** The fuel of [JSON.parse] *)

Section JsonFuel.

#[local] Arguments Ascii.eqb : simpl never.

Lemma skip_ws_length (s : string) :
  String.length (Json.skip_ws s) <= String.length s.
Proof.
  induction s as [|c s IH]; simpl; [lia|].
  destruct (Json.is_ws c); simpl; lia.
Qed.

Lemma skip_ws_cons (s : string) (c : ascii) (r : string) :
  Json.skip_ws s = String c r -> String.length r < String.length s.
Proof.
  intros H. pose proof (skip_ws_length s) as Hl. rewrite H in Hl. simpl in Hl. lia.
Qed.

Lemma digits_length (s : string) (acc cnt n k : Z) (r : string) :
  Json.digits s acc cnt = (n, k, r) ->
  (Z.of_nat (String.length s) - Z.of_nat (String.length r) = k - cnt)%Z
  /\ (cnt <= k)%Z.
Proof.
  revert acc cnt. induction s as [|c s IH]; intros acc cnt H; simpl in H.
  - inversion H. lia.
  - destruct (Json.digit_val c).
    + apply IH in H. simpl String.length. lia.
    + inversion H. lia.
Qed.

Lemma drop_length (n : nat) (s : string) :
  String.length (drop n s) = String.length s - n.
Proof.
  revert s. induction n as [|n IH]; intros s; simpl; [lia|].
  destruct s as [|c s]; simpl; [reflexivity | apply IH].
Qed.

Lemma starts_with_length (p s : string) :
  starts_with p s = true -> String.length p <= String.length s.
Proof.
  revert s. induction p as [|c p IH]; intros s H; simpl; [lia|].
  destruct s as [|d s]; [discriminate|]. simpl in H.
  apply andb_true_iff in H as [_ H]. apply IH in H. simpl. lia.
Qed.

Lemma literal_length (word : string) (v v' : jsval) (s rest : string) :
  0 < String.length word ->
  Json.literal word v s = Some (v', rest) -> String.length rest < String.length s.
Proof.
  unfold Json.literal. intros Hw H.
  destruct (starts_with word s) eqn:Hs; [|discriminate].
  inversion H. rewrite drop_length. apply starts_with_length in Hs. lia.
Qed.

Lemma parse_chars_length (s str rest : string) :
  Json.parse_chars s = Some (str, rest) -> String.length rest < String.length s.
Proof.
  assert (Hle : String.length s <= String.length s) by lia.
  revert Hle. generalize (String.length s) at 2 as n. intros n.
  revert s str rest.
  induction n as [|n IH]; intros s str rest Hle H.
  - destruct s; [discriminate | simpl in Hle; lia].
  - destruct s as [|c r]; [discriminate|]. simpl in Hle. simpl in H.
    destruct (Ascii.eqb c dquote).
    { inversion H. simpl. lia. }
    destruct (Ascii.eqb c "\").
    + destruct r as [|e r']; [discriminate|].
      destruct (Ascii.eqb e "u").
      * destruct r' as [|h1 [|h2 [|h3 [|h4 r'']]]]; try discriminate.
        destruct (Json.hex_val h1), (Json.hex_val h2), (Json.hex_val h3),
          (Json.hex_val h4); try discriminate.
        destruct (Json.parse_chars r'') as [[str' rest']|] eqn:Hr; [|discriminate].
        inversion H; subst. apply IH in Hr; simpl in *; lia.
      * destruct (Json.simple_escape e); [|discriminate].
        destruct (Json.parse_chars r') as [[str' rest']|] eqn:Hr; [|discriminate].
        inversion H; subst. apply IH in Hr; simpl in *; lia.
    + destruct (Json.code c <? 32)%Z; [discriminate|].
      destruct (Json.parse_chars r) as [[str' rest']|] eqn:Hr; [|discriminate].
      inversion H; subst. apply IH in Hr; simpl in *; lia.
Qed.

Ltac break_match :=
  match goal with
  | H : context [match ?x with _ => _ end] |- _ =>
      lazymatch x with
      | Json.digits _ _ _ =>
          let E := fresh "E" in
          destruct x as [[? ?] ?] eqn:E; apply digits_length in E
      | _ => destruct x eqn:?
      end
  end.

Ltac invert_results :=
  repeat match goal with
         | H : Some _ = Some _ |- _ => inversion H; subst; clear H
         | H : (_, _) = (_, _) |- _ => inversion H; subst; clear H
         | H : None = Some _ |- _ => discriminate H
         end.

Lemma parse_number_length (s : string) (v : jsval) (rest : string) :
  Json.parse_number s = Some (v, rest) -> String.length rest < String.length s.
Proof.
  unfold Json.parse_number. intros H.
  repeat (break_match; try discriminate).
  all: invert_results; simpl String.length in *; lia.
Qed.

Ltac replay :=
  simpl;
  repeat match goal with
         | H : ?x = _ |- context [match ?x with _ => _ end] => rewrite H
         end.

(** A successful parse consumes at least one character, and gives the same
    result with any fuel of at least twice the number of characters it
    consumes, less one. *)
Lemma fuel_bound (f : nat) :
  (forall s v rest,
     Json.parse_value f s = Some (v, rest) ->
     String.length rest < String.length s
     /\ forall f', 2 * (String.length s - String.length rest) <= f' + 1 ->
                   Json.parse_value f' s = Some (v, rest))
  /\ (forall s acc v rest,
        Json.parse_elements f s acc = Some (v, rest) ->
        String.length rest < String.length s
        /\ forall f', 2 * (String.length s - String.length rest) <= f' + 1 ->
                      Json.parse_elements f' s acc = Some (v, rest))
  /\ (forall s acc v rest,
        Json.parse_members f s acc = Some (v, rest) ->
        String.length rest < String.length s
        /\ forall f', 2 * (String.length s - String.length rest) <= f' + 1 ->
                      Json.parse_members f' s acc = Some (v, rest)).
Proof.
  induction f as [|f (IHv & IHe & IHm)].
  { repeat split; intros; discriminate. }
  split; [|split].
  - intros s v rest H. simpl in H.
    destruct (Json.skip_ws s) as [|c r] eqn:Hs; [discriminate|].
    pose proof (skip_ws_cons _ _ _ Hs) as Hlen.
    destruct (Ascii.eqb c "{") eqn:Hc1.
    { destruct (Json.skip_ws r) as [|c' r'] eqn:Hr; [discriminate|].
      pose proof (skip_ws_cons _ _ _ Hr) as Hlen'.
      destruct (Ascii.eqb c' "}") eqn:Hc'.
      - inversion H; subst. split; [lia|]. intros f' Hf'.
        destruct f' as [|f']; [lia|]. replay. reflexivity.
      - apply IHm in H as [Hl Hf]. split; [lia|]. intros f' Hf'.
        destruct f' as [|f']; [lia|]. replay. apply Hf. lia. }
    destruct (Ascii.eqb c "[") eqn:Hc2.
    { destruct (Json.skip_ws r) as [|c' r'] eqn:Hr; [discriminate|].
      pose proof (skip_ws_cons _ _ _ Hr) as Hlen'.
      destruct (Ascii.eqb c' "]") eqn:Hc'.
      - inversion H; subst. split; [lia|]. intros f' Hf'.
        destruct f' as [|f']; [lia|]. replay. reflexivity.
      - apply IHe in H as [Hl Hf]. split; [lia|]. intros f' Hf'.
        destruct f' as [|f']; [lia|]. replay. apply Hf. lia. }
    destruct (Ascii.eqb c dquote) eqn:Hc3.
    { destruct (Json.parse_chars r) as [[str rest']|] eqn:Hp; [|discriminate].
      inversion H; subst. apply parse_chars_length in Hp as Hl.
      split; [lia|]. intros f' Hf'.
      destruct f' as [|f']; [lia|]. replay. reflexivity. }
    destruct (Ascii.eqb c "t") eqn:Hc4.
    { apply literal_length in H as Hl; [|simpl; lia]. simpl in Hl.
      split; [lia|]. intros f' Hf'.
      destruct f' as [|f']; [lia|]. replay. exact H. }
    destruct (Ascii.eqb c "f") eqn:Hc5.
    { apply literal_length in H as Hl; [|simpl; lia]. simpl in Hl.
      split; [lia|]. intros f' Hf'.
      destruct f' as [|f']; [lia|]. replay. exact H. }
    destruct (Ascii.eqb c "n") eqn:Hc6.
    { apply literal_length in H as Hl; [|simpl; lia]. simpl in Hl.
      split; [lia|]. intros f' Hf'.
      destruct f' as [|f']; [lia|]. replay. exact H. }
    apply parse_number_length in H as Hl. simpl in Hl.
    split; [lia|]. intros f' Hf'.
    destruct f' as [|f']; [lia|]. replay. exact H.
  - intros s acc v rest H. simpl in H.
    destruct (Json.parse_value f s) as [[v1 rest1]|] eqn:Hv; [|discriminate].
    apply IHv in Hv as [Hl1 Hf1].
    destruct (Json.skip_ws rest1) as [|c r] eqn:Hs; [discriminate|].
    pose proof (skip_ws_cons _ _ _ Hs) as Hlen.
    destruct (Ascii.eqb c ",") eqn:Hc1.
    { apply IHe in H as [Hl Hf]. split; [lia|]. intros f' Hf'.
      destruct f' as [|f']; [lia|]. simpl. rewrite Hf1 by lia. replay.
      apply Hf. lia. }
    destruct (Ascii.eqb c "]") eqn:Hc2; [|discriminate].
    inversion H; subst. split; [lia|]. intros f' Hf'.
    destruct f' as [|f']; [lia|]. simpl. rewrite Hf1 by lia. replay. reflexivity.
  - intros s acc v rest H. simpl in H.
    destruct (Json.skip_ws s) as [|q r] eqn:Hs; [discriminate|].
    pose proof (skip_ws_cons _ _ _ Hs) as Hlen.
    destruct (Ascii.eqb q dquote) eqn:Hq; [|discriminate].
    destruct (Json.parse_chars r) as [[k rest0]|] eqn:Hk; [|discriminate].
    apply parse_chars_length in Hk as Hl0.
    destruct (Json.skip_ws rest0) as [|colon r2] eqn:Hs2; [discriminate|].
    pose proof (skip_ws_cons _ _ _ Hs2) as Hlen2.
    destruct (Ascii.eqb colon ":") eqn:Hcolon; [|discriminate].
    destruct (Json.parse_value f r2) as [[v1 rest2]|] eqn:Hv; [|discriminate].
    apply IHv in Hv as [Hl1 Hf1].
    destruct (Json.skip_ws rest2) as [|d r3] eqn:Hs3; [discriminate|].
    pose proof (skip_ws_cons _ _ _ Hs3) as Hlen3.
    destruct (Ascii.eqb d ",") eqn:Hd1.
    { apply IHm in H as [Hl Hf]. split; [lia|]. intros f' Hf'.
      destruct f' as [|f']; [lia|]. replay. rewrite Hf1 by lia. replay.
      apply Hf. lia. }
    destruct (Ascii.eqb d "}") eqn:Hd2; [|discriminate].
    inversion H; subst. split; [lia|]. intros f' Hf'.
    destruct f' as [|f']; [lia|]. replay. rewrite Hf1 by lia. replay. reflexivity.
Qed.

(** [JSON.parse] does not depend on its fuel: whatever some amount of fuel
    parses, the fuel that [Json.parse] gives parses. *)
Lemma parse_fuel_enough (f : nat) (s : string) (v : jsval) (rest : string) :
  Json.parse_value f s = Some (v, rest) ->
  Json.parse_value (2 * String.length s + 4) s = Some (v, rest).
Proof.
  intros H. destruct (fuel_bound f) as (Hv & _ & _).
  apply Hv in H as [Hl Hf]. apply Hf. lia.
Qed.

Lemma parse_complete (f : nat) (s : string) (v : jsval) (rest : string) :
  Json.parse_value f s = Some (v, rest) ->
  Json.skip_ws rest = "" ->
  Json.parse s = Some v.
Proof.
  intros H Hrest. unfold Json.parse.
  rewrite (parse_fuel_enough f s v rest H), Hrest. reflexivity.
Qed.

End JsonFuel.

(** ** What the two patterns match *)

Lemma append_empty (s : string) : "" +:+ s = s.
Proof. reflexivity. Qed.

Lemma append_cons (c : ascii) (a b : string) : String c a +:+ b = String c (a +:+ b).
Proof. reflexivity. Qed.

Lemma starts_with_append (p s : string) : starts_with p (p +:+ s) = true.
Proof.
  induction p as [|c p IH]; simpl; [reflexivity|].
  rewrite Ascii.eqb_refl. exact IH.
Qed.

Lemma starts_with_split (p s : string) :
  starts_with p s = true -> s = p +:+ drop (String.length p) s.
Proof.
  revert s. induction p as [|c p IH]; intros s H; [reflexivity|].
  destruct s as [|d s]; [discriminate|]. simpl in H.
  apply andb_true_iff in H as [Hc Hp]. apply Ascii.eqb_eq in Hc. subst d.
  change (String c s = String c (p +:+ drop (String.length p) s)).
  f_equal. apply IH, Hp.
Qed.

Lemma includes_here (p s : string) : starts_with p s = true -> includes p s.
Proof.
  intros H. exists "", (drop (String.length p) s). rewrite append_empty.
  apply starts_with_split, H.
Qed.

Lemma includes_later (p : string) (c : ascii) (s : string) :
  includes p s -> includes p (String c s).
Proof. intros (a & b & ->). exists (String c a), b. reflexivity. Qed.

Lemma includes_cons (p : string) (c : ascii) (s : string) :
  includes p (String c s) -> starts_with p (String c s) = true \/ includes p s.
Proof.
  intros (a & b & H). destruct a as [|d a].
  - left. rewrite H, append_empty. apply starts_with_append.
  - right. rewrite append_cons in H. inversion H. exists a, b. reflexivity.
Qed.

Lemma includes_empty (p : string) : includes p "" -> p = "".
Proof.
  intros (a & b & H). destruct a; [|discriminate]. destruct p; [reflexivity|discriminate].
Qed.

Lemma upto_last_brace_some (s p : string) :
  Regex.upto_last_brace s = Some p -> includes "}" s.
Proof.
  revert p. induction s as [|c s IH]; intros p H; cbn in H; [discriminate|].
  destruct (Regex.upto_last_brace s) as [q|].
  - apply includes_later. apply (IH q). reflexivity.
  - destruct (Ascii.eqb c "}") eqn:Hc; [|discriminate].
    apply Ascii.eqb_eq in Hc. subst c. apply includes_here. reflexivity.
Qed.

Lemma upto_last_brace_none (s : string) :
  Regex.upto_last_brace s = None <-> ~ includes "}" s.
Proof.
  split.
  - induction s as [|c s IH]; cbn; intros H Hin.
    + apply includes_empty in Hin. discriminate.
    + destruct (Regex.upto_last_brace s) as [q|]; [discriminate|].
      destruct (Ascii.eqb c "}") eqn:Hc; [discriminate|].
      apply includes_cons in Hin as [Hin|Hin].
      * apply starts_with_split in Hin. rewrite append_cons in Hin.
        inversion Hin; subst. rewrite Ascii.eqb_refl in Hc. discriminate.
      * exact (IH eq_refl Hin).
  - intros H. destruct (Regex.upto_last_brace s) as [p|] eqn:Hp; [|reflexivity].
    exfalso. apply H. exact (upto_last_brace_some s p Hp).
Qed.

Lemma match_braces_some (s : string) (m : Regex.match_result) :
  Regex.match_braces s = Some m -> brace_pair s.
Proof.
  induction s as [|c s IH]; cbn; [discriminate|].
  destruct (Ascii.eqb c "{") eqn:Hc.
  - destruct (Regex.upto_last_brace s) as [p|] eqn:Hp.
    + intros _. apply Ascii.eqb_eq in Hc. subst c.
      exists "", s. split; [reflexivity|]. exact (upto_last_brace_some s p Hp).
    + intros H. destruct (IH H) as (a & b & -> & Hb).
      exists (String c a), b. split; [reflexivity | exact Hb].
  - intros H. destruct (IH H) as (a & b & -> & Hb).
    exists (String c a), b. split; [reflexivity | exact Hb].
Qed.

Lemma match_braces_none (s : string) :
  Regex.match_braces s = None <-> ~ brace_pair s.
Proof.
  split.
  - induction s as [|c s IH]; cbn; intros H (a & b & Hs & Hb).
    + destruct a; discriminate.
    + destruct a as [|d a];
        [rewrite append_empty in Hs | rewrite append_cons in Hs];
        rewrite (append_cons "{" "" b), append_empty in Hs; inversion Hs; subst.
      * rewrite Ascii.eqb_refl in H. apply upto_last_brace_none in Hb; [exact Hb|].
        destruct (Regex.upto_last_brace b); [discriminate | reflexivity].
      * apply IH.
        -- destruct (Ascii.eqb d "{"); [|exact H].
           destruct (Regex.upto_last_brace _); [discriminate | exact H].
        -- exists a, b. split; [reflexivity | exact Hb].
  - intros H. destruct (Regex.match_braces s) as [m|] eqn:Hm; [|reflexivity].
    exfalso. apply H. exact (match_braces_some s m Hm).
Qed.

Lemma includes_append (p a s : string) : includes p s -> includes p (a +:+ s).
Proof.
  induction a as [|c a IH]; intros H; [exact H|].
  rewrite append_cons. apply includes_later, IH, H.
Qed.

Lemma skip_space_split (s : string) :
  s = Regex.leading_space s +:+ Regex.skip_space s.
Proof.
  induction s as [|c s IH]; [reflexivity|]. simpl.
  destruct (Regex.is_space c); [|reflexivity].
  rewrite append_cons. f_equal. exact IH.
Qed.

Lemma fence_not_space (c : ascii) (s : string) :
  starts_with Regex.fence (String c s) = true -> Regex.is_space c = false.
Proof.
  intros H. apply starts_with_split in H. unfold Regex.fence in H.
  rewrite append_cons in H. inversion H. reflexivity.
Qed.

Lemma includes_skip_space (s : string) :
  includes Regex.fence s <-> includes Regex.fence (Regex.skip_space s).
Proof.
  split.
  - induction s as [|c s IH]; intros H; [exact H|]. simpl.
    destruct (Regex.is_space c) eqn:Hc; [|exact H].
    apply includes_cons in H as [H|H]; [|exact (IH H)].
    apply fence_not_space in H. congruence.
  - intros H. rewrite (skip_space_split s). apply includes_append, H.
Qed.

Lemma skip_space_cons (c : ascii) (s : string) :
  Regex.skip_space (String c s)
  = if Regex.is_space c then Regex.skip_space s else String c s.
Proof. reflexivity. Qed.

Lemma lazy_group_eq (s : string) :
  Regex.lazy_group s
  = if starts_with Regex.fence (Regex.skip_space s)
    then Some ("", Regex.leading_space s)
    else match s with
         | EmptyString => None
         | String c r =>
             match Regex.lazy_group r with
             | Some (g, sp) => Some (String c g, sp)
             | None => None
             end
         end.
Proof. destruct s; reflexivity. Qed.

Lemma lazy_group_some (s : string) (r : string * string) :
  Regex.lazy_group s = Some r -> includes Regex.fence s.
Proof.
  revert r. induction s as [|c s IH]; intros r H; rewrite lazy_group_eq in H;
    destruct (starts_with Regex.fence (Regex.skip_space _)) eqn:Hf;
    try (apply includes_skip_space, includes_here, Hf).
  - discriminate.
  - destruct (Regex.lazy_group s) as [[g sp]|]; [|discriminate].
    apply includes_later. exact (IH _ eq_refl).
Qed.

Lemma lazy_group_none (s : string) :
  Regex.lazy_group s = None <-> ~ includes Regex.fence s.
Proof.
  split.
  - induction s as [|c s IH]; intros H Hin.
    + apply includes_empty in Hin. discriminate.
    + rewrite lazy_group_eq in H.
      destruct (starts_with Regex.fence (Regex.skip_space (String c s))) eqn:Hf;
        [discriminate|].
      destruct (Regex.lazy_group s) as [[g sp]|]; [discriminate|].
      apply includes_cons in Hin as [Hin|Hin]; [|exact (IH eq_refl Hin)].
      rewrite skip_space_cons, (fence_not_space _ _ Hin) in Hf. congruence.
  - intros H. destruct (Regex.lazy_group s) as [r|] eqn:Hr; [|reflexivity].
    exfalso. apply H. exact (lazy_group_some s r Hr).
Qed.

Lemma fence_here_some (s : string) (m : Regex.match_result) :
  Regex.fence_here s = Some m -> fenced_block s.
Proof.
  unfold Regex.fence_here. destruct (starts_with "```json" s) eqn:Hs; [|discriminate].
  destruct (Regex.lazy_group (Regex.skip_space (drop 7 s))) as [[g sp]|] eqn:Hl;
    [|discriminate].
  intros _. exists "", (drop 7 s). split.
  - rewrite append_empty. exact (starts_with_split _ _ Hs).
  - apply includes_skip_space. exact (lazy_group_some _ _ Hl).
Qed.

Lemma fence_here_none (b : string) :
  Regex.fence_here ("```json" +:+ b) = None -> ~ includes Regex.fence b.
Proof.
  unfold Regex.fence_here. rewrite starts_with_append.
  change (drop 7 ("```json" +:+ b)) with b.
  destruct (Regex.lazy_group (Regex.skip_space b)) as [[g sp]|] eqn:Hl; [discriminate|].
  intros _ H. apply includes_skip_space in H. apply lazy_group_none in Hl. exact (Hl H).
Qed.

Lemma match_fence_some (s : string) (m : Regex.match_result) :
  Regex.match_fence s = Some m -> fenced_block s.
Proof.
  induction s as [|c s IH]; simpl.
  - destruct (Regex.fence_here "") eqn:Hh; [|discriminate].
    intros _. exact (fence_here_some _ _ Hh).
  - destruct (Regex.fence_here (String c s)) eqn:Hh.
    + intros _. exact (fence_here_some _ _ Hh).
    + intros H. destruct (IH H) as (a & b & -> & Hb).
      exists (String c a), b. split; [reflexivity | exact Hb].
Qed.

Lemma match_fence_none (s : string) :
  Regex.match_fence s = None <-> ~ fenced_block s.
Proof.
  split.
  - induction s as [|c s IH]; intros H (a & b & Hs & Hb).
    + destruct a; discriminate.
    + simpl in H. destruct (Regex.fence_here (String c s)) eqn:Hh; [discriminate|].
      destruct a as [|d a].
      * rewrite append_empty in Hs. rewrite Hs in Hh.
        exact (fence_here_none b Hh Hb).
      * rewrite append_cons in Hs. inversion Hs; subst.
        apply (IH H). exists a, b. split; [reflexivity | exact Hb].
  - intros H. destruct (Regex.match_fence s) as [m|] eqn:Hm; [|reflexivity].
    exfalso. apply H. exact (match_fence_some s m Hm).
Qed.

(** ** The POST handler as written *)

Lemma handler_scope_generationId (c : context) :
  handler_scope c !! "generationId" = None.
Proof.
  unfold handler_scope.
  rewrite !lookup_insert_ne by done.
  vm_compute. reflexivity.
Qed.

Lemma read_generationId (c : context) (w : world) :
  read_var (handler_scope c) "generationId" w = (Throw generationId_undefined, w).
Proof.
  unfold read_var. rewrite handler_scope_generationId. reflexivity.
Qed.

(** Every run of the handler: the SELECT is the only call that leaves the
    worker, and the handler either answers 429 or lets the ReferenceError of
    its [catch] block escape. *)
Lemma post_generate_eq (c : context) (w : world) :
  post_generate c w =
    let w1 := add_log (DbSelectUser (userId c)) w in
    match db_error (env c) (DbSelectUser (userId c)), users w !! userId c with
    | None, Some u =>
        if (generations_limit u <=? generations_used u)%Z
        then (Ok limit_reached, w1)
        else (Throw generationId_undefined, w1)
    | _, _ => (Throw generationId_undefined, w1)
    end.
Proof.
  unfold post_generate, generate_in, generate_try, generate_catch, try_catch, bind,
    select_user, db, emit.
  cbn [fst snd].
  destruct (db_error (env c) (DbSelectUser (userId c))) as [x|] eqn:Hdb.
  - cbn. unfold bind. rewrite read_generationId. destruct (users w !! userId c); reflexivity.
  - cbn. destruct (users w !! userId c) as [u|] eqn:Hu; cbn.
    + destruct (generations_limit u <=? generations_used u)%Z; cbn.
      * reflexivity.
      * unfold bind. rewrite !read_generationId. reflexivity.
    + unfold bind. rewrite read_generationId. reflexivity.
Qed.

(** C1. A POST /generation/generate request by an account whose usage counter
    has reached its limit is answered with status 429 and an error message
    that contains "Generation limit reached"; the users and generations tables
    and the blob store are left as they were, and the SELECT of the quota is
    the only call the handler makes. *)
Theorem C1_quota_gate_rejects_without_effect
    (c : context) (w : world) (u : user_row) :
  db_error (env c) (DbSelectUser (userId c)) = None ->
  users w !! userId c = Some u ->
  (generations_limit u <= generations_used u)%Z ->
  exists (r : response) (w' : world) (msg : string),
    post_generate c w = (Ok r, w')
    /\ status r = 429%Z
    /\ error_message r = Some msg
    /\ includes "Generation limit reached" msg
    /\ users w' = users w
    /\ generations w' = generations w
    /\ storage w' = storage w
    /\ log w' = (log w ++ [DbSelectUser (userId c)])%list.
Proof.
  intros Hdb Hu Hge.
  exists limit_reached, (add_log (DbSelectUser (userId c)) w),
    "Generation limit reached. Upgrade your plan to continue.".
  rewrite post_generate_eq. cbn zeta. rewrite Hdb, Hu.
  assert (Hb : (generations_limit u <=? generations_used u)%Z = true)
    by (apply Z.leb_le; exact Hge).
  rewrite Hb.
  repeat split.
  exists "", ". Upgrade your plan to continue.". reflexivity.
Qed.

Lemma C1_quota_gate_witness :
  db_error (env (call healthy)) (DbSelectUser (userId (call healthy))) = None
  /\ users (account 3) !! userId (call healthy) = Some (UserRow 3 3)
  /\ (generations_limit (UserRow 3 3) <= generations_used (UserRow 3 3))%Z
  /\ exists (r : response) (w' : world) (msg : string),
       post_generate (call healthy) (account 3) = (Ok r, w')
       /\ status r = 429%Z
       /\ error_message r = Some msg
       /\ includes "Generation limit reached" msg
       /\ users w' = users (account 3)
       /\ generations w' = generations (account 3)
       /\ storage w' = storage (account 3)
       /\ log w' = (log (account 3) ++ [DbSelectUser (userId (call healthy))])%list.
Proof.
  assert (H1 : db_error (env (call healthy)) (DbSelectUser (userId (call healthy))) = None)
    by reflexivity.
  assert (H2 : users (account 3) !! userId (call healthy) = Some (UserRow 3 3))
    by (vm_compute; reflexivity).
  assert (H3 : (generations_limit (UserRow 3 3) <= generations_used (UserRow 3 3))%Z)
    by (simpl; lia).
  exact (conj H1 (conj H2 (conj H3
           (C1_quota_gate_rejects_without_effect (call healthy) (account 3)
              (UserRow 3 3) H1 H2 H3)))).
Defined.

Lemma post_generate_outcome (c : context) (w : world) :
  fst (post_generate c w) = Ok limit_reached
  \/ fst (post_generate c w) = Throw generationId_undefined.
Proof.
  rewrite post_generate_eq. cbn zeta.
  destruct (db_error (env c) (DbSelectUser (userId c))); [right; reflexivity|].
  destruct (users w !! userId c) as [u|]; [|right; reflexivity].
  destruct (generations_limit u <=? generations_used u)%Z; [left|right]; reflexivity.
Qed.

Lemma post_generate_world (c : context) (w : world) :
  snd (post_generate c w) = add_log (DbSelectUser (userId c)) w.
Proof.
  rewrite post_generate_eq. cbn zeta.
  destruct (db_error (env c) (DbSelectUser (userId c))); [reflexivity|].
  destruct (users w !! userId c) as [u|]; [|reflexivity].
  destruct (generations_limit u <=? generations_used u)%Z; reflexivity.
Qed.

(** C2 (the handler departs from it).  For every request of an account with
    quota left, the handler stops with the ReferenceError of the undeclared
    [generationId]: the generations table is as it was, and the quota SELECT
    is the only call that was made, so neither the INSERT of the processing
    row nor a provider call happened. *)
Theorem C2_no_processing_row_is_persisted
    (c : context) (w : world) (u : user_row) :
  db_error (env c) (DbSelectUser (userId c)) = None ->
  users w !! userId c = Some u ->
  (generations_used u < generations_limit u)%Z ->
  fst (post_generate c w) = Throw generationId_undefined
  /\ generations (snd (post_generate c w)) = generations w
  /\ log (snd (post_generate c w)) = (log w ++ [DbSelectUser (userId c)])%list.
Proof.
  intros Hdb Hu Hlt. rewrite post_generate_eq. cbn zeta. rewrite Hdb, Hu.
  assert (Hb : (generations_limit u <=? generations_used u)%Z = false)
    by (apply Z.leb_gt; exact Hlt).
  rewrite Hb. repeat split.
Qed.

Lemma C2_no_processing_row_witness :
  db_error (env (call healthy)) (DbSelectUser (userId (call healthy))) = None
  /\ users (account 0) !! userId (call healthy) = Some (UserRow 0 3)
  /\ (generations_used (UserRow 0 3) < generations_limit (UserRow 0 3))%Z
  /\ fst (post_generate (call healthy) (account 0)) = Throw generationId_undefined
  /\ generations (snd (post_generate (call healthy) (account 0)))
     = generations (account 0)
  /\ log (snd (post_generate (call healthy) (account 0)))
     = (log (account 0) ++ [DbSelectUser (userId (call healthy))])%list.
Proof.
  assert (H1 : db_error (env (call healthy)) (DbSelectUser (userId (call healthy))) = None)
    by reflexivity.
  assert (H2 : users (account 0) !! userId (call healthy) = Some (UserRow 0 3))
    by (vm_compute; reflexivity).
  assert (H3 : (generations_used (UserRow 0 3) < generations_limit (UserRow 0 3))%Z)
    by (simpl; lia).
  exact (conj H1 (conj H2 (conj H3
           (C2_no_processing_row_is_persisted (call healthy) (account 0)
              (UserRow 0 3) H1 H2 H3)))).
Defined.

(** C5 (the handler departs from it).  No run of the handler is a successful
    generation: it answers 429 or stops with the ReferenceError, never with
    the 200 response; it creates and completes no generations row and never
    increments a usage counter. *)
Theorem C5_no_generation_completes (c : context) (w : world) :
  (fst (post_generate c w) = Ok limit_reached
   \/ fst (post_generate c w) = Throw generationId_undefined)
  /\ generations (snd (post_generate c w)) = generations w
  /\ users (snd (post_generate c w)) = users w.
Proof.
  split; [apply post_generate_outcome|].
  rewrite post_generate_world. split; reflexivity.
Qed.

(** C6 (the handler departs from it).  The [catch] block never completes:
    no run of the handler returns the 500 response, and none issues the
    UPDATE that writes the failed status, whatever is thrown in the [try]
    block; the exception that leaves the handler is the ReferenceError of
    [generationId], raised by the arguments of that UPDATE. *)
Theorem C6_catch_block_never_completes (c : context) (w : world) :
  fst (post_generate c w) <> Ok generation_failed
  /\ log (snd (post_generate c w)) = (log w ++ [DbSelectUser (userId c)])%list
  /\ fst (post_generate (call healthy) (account 0)) = Throw generationId_undefined.
Proof.
  split; [|split].
  - destruct (post_generate_outcome c w) as [H|H]; rewrite H; discriminate.
  - rewrite post_generate_world. reflexivity.
  - vm_compute. reflexivity.
Qed.

(** No run of the handler changes the generations table. *)
Lemma post_generate_keeps_generations (c : context) (w : world) (id : string) :
  generations (snd (post_generate c w)) !! id = generations w !! id.
Proof. rewrite post_generate_world. reflexivity. Qed.

(** C8 (the handler departs from it).  No run of the handler writes to the
    blob store; for the sample request, whose primary provider returns the
    file [a.tsx], the store stays empty and no [put] is attempted. *)
Theorem C8_no_artifact_is_stored (c : context) (w : world) :
  storage (snd (post_generate c w)) = storage w
  /\ storage (snd (post_generate (call healthy) (account 0))) = ∅
  /\ log (snd (post_generate (call healthy) (account 0))) = [DbSelectUser "u1"].
Proof.
  split.
  - rewrite post_generate_world. reflexivity.
  - vm_compute. split; reflexivity.
Qed.

(** C10 (the handler departs from it).  When the primary provider would
    answer successfully with an object without [files], the handler still
    stops with the ReferenceError: the provider is not called and no row is
    marked completed. *)
Theorem C10_no_files_response_is_not_completed :
  fst (callV0API "Build a pricing page" "page" "react" no_files (account 0))
    = Ok (JObj [("files", JArr []); ("description", JStr "Generated with v0");
                ("instructions", JStr "Standard React component setup")])
  /\ fst (post_generate (call no_files) (account 0)) = Throw generationId_undefined
  /\ generations (snd (post_generate (call no_files) (account 0))) = ∅
  /\ log (snd (post_generate (call no_files) (account 0))) = [DbSelectUser "u1"].
Proof. vm_compute. repeat split; reflexivity. Qed.

(** ** The provider adapters *)

Lemma generateCode_world (prompt type framework : string) (e : Env) (w : world) :
  snd (generateCode prompt type framework e w) = add_log AiRun w.
Proof.
  unfold generateCode, try_catch, bind, run_ai, emit, lift_option, throw, ret.
  destruct (ai_run e) as [x|[aiText|]]; cbn; try reflexivity.
  destruct (jsonMatch aiText) as [m|]; cbn; [|reflexivity].
  unfold JSON_parse, lift_option. destruct (Json.parse (matched_text m)); reflexivity.
Qed.

Lemma callV0API_world (prompt type framework : string) (e : Env) (w : world) :
  snd (callV0API prompt type framework e w) = w
  \/ snd (callV0API prompt type framework e w) = add_log FetchV0 w.
Proof.
  unfold callV0API. destruct (key_missing (V0_API_KEY e)); [left; reflexivity|].
  right. unfold try_catch, bind, fetch_v0, emit, throw, ret.
  destruct (v0_fetch e) as [x|ok st b]; cbn; [reflexivity|].
  destruct ok; cbn; [|reflexivity].
  unfold JSON_parse, lift_option. destruct (Json.parse b) as [v|]; cbn; [|reflexivity].
  destruct (transform v); reflexivity.
Qed.

(** A missing key, a rejected fetch and a response that is not ok each make
    [callV0API] throw, after at most the one fetch. *)
Lemma callV0API_no_key (prompt type framework : string) (e : Env) (w : world) :
  key_missing (V0_API_KEY e) = true ->
  callV0API prompt type framework e w = (Throw (Error "v0 API key not configured"), w).
Proof. intros H. unfold callV0API. rewrite H. reflexivity. Qed.

Lemma callV0API_fetch_rejects (prompt type framework : string) (e : Env) (w : world) (x : exn) :
  key_missing (V0_API_KEY e) = false ->
  v0_fetch e = FetchThrows x ->
  callV0API prompt type framework e w = (Throw x, add_log FetchV0 w).
Proof.
  intros Hk Hf. unfold callV0API. rewrite Hk.
  unfold try_catch, bind, fetch_v0, emit. rewrite Hf. reflexivity.
Qed.

Lemma callV0API_not_ok (prompt type framework : string) (e : Env) (w : world)
    (st : Z) (b : string) :
  key_missing (V0_API_KEY e) = false ->
  v0_fetch e = FetchResponse false st b ->
  callV0API prompt type framework e w
  = (Throw (Error ("v0 API error: " +:+ pretty st +:+ " " +:+ b)), add_log FetchV0 w).
Proof.
  intros Hk Hf. unfold callV0API. rewrite Hk.
  unfold try_catch, bind, fetch_v0, emit. rewrite Hf. reflexivity.
Qed.



Lemma includes_prompt (prompt type framework : string) :
  includes prompt (generateFallbackCode prompt type framework).
Proof.
  exists "// Generated component based on: ",
    (fallback_middle +:+ prompt +:+ fallback_tail).
  reflexivity.
Qed.

Lemma generateCode_reply (prompt type framework : string) (e : Env) (w : world)
    (aiText : string) :
  ai_run e = AiReturns (Some aiText) ->
  fst (generateCode prompt type framework e w)
  = match jsonMatch aiText with
    | Some m => parse_or_fail (matched_text m)
    | None => Ok (basic_structure prompt type framework)
    end.
Proof.
  intros H. unfold generateCode, try_catch, bind, run_ai, emit. rewrite H. cbn.
  destruct (jsonMatch aiText) as [m|]; cbn; [|reflexivity].
  unfold JSON_parse, lift_option, parse_or_fail.
  destruct (Json.parse (matched_text m)); reflexivity.
Qed.

(** C4 (as amended).  On a reply of the fallback model, [generateCode] tries
    the fenced json block first and the brace pattern second.  When the
    fence matches, the result is [JSON.parse] of its group (of the whole
    match when the group is empty); when only the braces match, it is
    [JSON.parse] of the matched span; in both cases [generateCode] throws if
    that text does not parse.  When neither pattern matches, that is when the
    reply has no json fence followed by a fence and no opening brace followed
    by a closing brace, the result has exactly one file, [component.tsx],
    whose content includes the prompt verbatim. *)
Theorem C4_generateCode_extraction
    (prompt type framework : string) (e : Env) (w : world) (aiText : string) :
  ai_run e = AiReturns (Some aiText) ->
  (forall m, Regex.match_fence aiText = Some m ->
     fst (generateCode prompt type framework e w) = parse_or_fail (matched_text m))
  /\ (forall m, Regex.match_fence aiText = None ->
        Regex.match_braces aiText = Some m ->
        fst (generateCode prompt type framework e w) = parse_or_fail (Regex.whole m))
  /\ (~ fenced_block aiText ->
      ~ brace_pair aiText ->
      exists content : string,
        fst (generateCode prompt type framework e w)
        = Ok (JObj [("files",
                     JArr [JObj [("name", JStr "component.tsx");
                                 ("content", JStr content);
                                 ("type", JStr "text/tsx")]]);
                    ("description", JStr "Basic component generated");
                    ("instructions",
                     JStr "Install dependencies and run the development server")])
        /\ includes prompt content).
Proof.
  intros H. rewrite (generateCode_reply _ _ _ _ _ _ H). unfold jsonMatch.
  repeat split.
  - intros m Hm. rewrite Hm. reflexivity.
  - intros m Hf Hb. rewrite Hf, Hb.
    assert (Hg : Regex.group1 m = None).
    { clear -Hb. induction aiText as [|ch r IH]; cbn in Hb; [discriminate|].
      destruct (Ascii.eqb ch "{").
      - destruct (Regex.upto_last_brace r).
        + inversion Hb. reflexivity.
        + exact (IH Hb).
      - exact (IH Hb). }
    unfold matched_text. rewrite Hg. reflexivity.
  - intros Hf Hb. apply match_fence_none in Hf. apply match_braces_none in Hb.
    rewrite Hf, Hb.
    exists (generateFallbackCode prompt type framework).
    split; [reflexivity | apply includes_prompt].
Qed.

Lemma C4_generateCode_extraction_witness :
  ai_run (model_says "Sorry, I can only answer in prose.")
  = AiReturns (Some "Sorry, I can only answer in prose.")
  /\ ((forall m, Regex.match_fence "Sorry, I can only answer in prose." = Some m ->
         fst (generateCode "Build a pricing page" "page" "react"
                (model_says "Sorry, I can only answer in prose.") (account 0))
         = parse_or_fail (matched_text m))
      /\ (forall m, Regex.match_fence "Sorry, I can only answer in prose." = None ->
            Regex.match_braces "Sorry, I can only answer in prose." = Some m ->
            fst (generateCode "Build a pricing page" "page" "react"
                   (model_says "Sorry, I can only answer in prose.") (account 0))
            = parse_or_fail (Regex.whole m))
      /\ (~ fenced_block "Sorry, I can only answer in prose." ->
          ~ brace_pair "Sorry, I can only answer in prose." ->
          exists content : string,
            fst (generateCode "Build a pricing page" "page" "react"
                   (model_says "Sorry, I can only answer in prose.") (account 0))
            = Ok (JObj [("files",
                         JArr [JObj [("name", JStr "component.tsx");
                                     ("content", JStr content);
                                     ("type", JStr "text/tsx")]]);
                        ("description", JStr "Basic component generated");
                        ("instructions",
                         JStr "Install dependencies and run the development server")])
            /\ includes "Build a pricing page" content)).
Proof.
  assert (H : ai_run (model_says "Sorry, I can only answer in prose.")
              = AiReturns (Some "Sorry, I can only answer in prose."))
    by reflexivity.
  exact (conj H (C4_generateCode_extraction "Build a pricing page" "page" "react"
                   (model_says "Sorry, I can only answer in prose.") (account 0)
                   "Sorry, I can only answer in prose." H)).
Defined.

(** A reply in prose matches neither pattern and gives the placeholder. *)
Example prose_reply_is_synthesized :
  ~ fenced_block "Sorry, I can only answer in prose."
  /\ ~ brace_pair "Sorry, I can only answer in prose."
  /\ fst (generateCode "Build a pricing page" "page" "react"
            (model_says "Sorry, I can only answer in prose.") (account 0))
     = Ok (basic_structure "Build a pricing page" "page" "react").
Proof.
  split; [apply match_fence_none; vm_compute; reflexivity|].
  split; [apply match_braces_none; vm_compute; reflexivity|].
  vm_compute. reflexivity.
Qed.

(** C4 as stated fails.  The reply [{oops}] contains no parseable JSON
    object, but the result is not a synthesized file: the brace pattern
    matches, [JSON.parse] rejects the match and [generateCode] throws. *)
Lemma C4_counterexample :
  contains_json_object "{oops}" = false
  /\ Regex.match_braces "{oops}" = Some (Regex.Match "{oops}" None)
  /\ fst (generateCode "Build a pricing page" "page" "react" (model_says "{oops}")
            (account 0))
     = Throw (Error "AI code generation failed").
Proof. vm_compute. repeat split; reflexivity. Qed.

(** ** The writes of the status *)

Lemma status_writes_add_log (ev : event) (w : world) :
  status_writes (add_log ev w)
  = (status_writes w ++ (if writes_status ev then [ev] else []))%list.
Proof.
  unfold status_writes, add_log. cbn [log]. rewrite List.filter_app. cbn.
  destruct (writes_status ev); reflexivity.
Qed.

(** C7 (the handler departs from it).  No run of the handler issues a
    statement that writes the status of a generations row: neither the
    INSERT with 'processing' nor either UPDATE is reached, because the
    handler stops at the undeclared [generationId].  A request that passes
    the quota gate thus gets no row, and its status makes no transition, the
    one to a terminal state included. *)
Theorem C7_no_status_is_ever_written (c : context) (w : world) :
  status_writes (snd (post_generate c w)) = status_writes w
  /\ generations (snd (post_generate c w)) = generations w
  /\ fst (post_generate (call healthy) (account 0)) = Throw generationId_undefined
  /\ status_writes (snd (post_generate (call healthy) (account 0))) = []
  /\ generations (snd (post_generate (call healthy) (account 0))) = ∅.
Proof.
  rewrite !post_generate_world. split; [|split; [reflexivity|]].
  - rewrite status_writes_add_log. cbn. apply app_nil_r.
  - vm_compute. repeat split; reflexivity.
Qed.

(** ** The history route *)


Lemma history_limit_of (c : context) (n : Z) :
  Num.parseInt (query_or c "limit" "10") = Some (Num.Fin n) ->
  history_limit c = Some (Num.Fin (Z.min n 50)).
Proof.
  intros H. unfold history_limit. rewrite H. cbn.
  destruct (Z.ltb_spec 50 n).
  - rewrite Z.min_r by lia. reflexivity.
  - rewrite Z.min_l by lia. reflexivity.
Qed.


(** C9 (the handler departs from it).  The LIMIT of GET /history is
    [Math.min] of the parsed [limit] parameter and 50, and 10 stands in for
    a parameter that is absent or empty.  For a parameter that is not
    negative the query returns at most that many rows and at most 50.  A
    negative parameter passes [Math.min] as it is, and a negative LIMIT is
    no limit: the query then returns every row of the caller from the
    offset on, however many there are. *)
Theorem C9_negative_limit_is_not_capped (c : context) (w : world) (n o : Z) :
  Num.parseInt (query_or c "limit" "10") = Some (Num.Fin n) ->
  as_int64 (history_offset c) = Some o ->
  snd (fst (history_bindings c)) = Some (Num.Fin (Z.min n 50))
  /\ (query c "limit" = None \/ query c "limit" = Some "" -> n = 10%Z)
  /\ ((0 <= n)%Z ->
      history_rows c w
      = Some (Z.min (Z.min n 50) (Z.max 0 (rows_of w (userId c) - Z.max 0 o))))
  /\ ((n < 0)%Z -> (- 2 ^ 63 <= n)%Z ->
      history_rows c w = Some (Z.max 0 (rows_of w (userId c) - Z.max 0 o))).
Proof.
  intros Hn Ho. pose proof (history_limit_of c n Hn) as Hl.
  assert (Hpow : (2 ^ 63 = 9223372036854775808)%Z) by reflexivity.
  assert (Hin : (- 2 ^ 63 <= n)%Z ->
                ((- 2 ^ 63 <=? Z.min n 50)%Z && (Z.min n 50 <? 2 ^ 63)%Z) = true).
  { intros Hlow. apply andb_true_intro.
    split; [apply Z.leb_le|apply Z.ltb_lt]; rewrite Hpow in *; lia. }
  split; [exact Hl|]. split; [|split].
  - intros Hq. unfold query_or in Hn.
    assert (Num.parseInt "10" = Some (Num.Fin n)) as H10.
    { destruct Hq as [Hq|Hq]; rewrite Hq in Hn; exact Hn. }
    vm_compute in H10. inversion H10. reflexivity.
  - intros Hpos. unfold history_rows. rewrite Ho, Hl. unfold as_int64.
    rewrite Hin by (rewrite Hpow; lia). unfold limit_offset.
    replace (Z.min n 50 <? 0)%Z with false by (symmetry; apply Z.ltb_ge; lia).
    reflexivity.
  - intros Hneg Hlow. unfold history_rows. rewrite Ho, Hl. unfold as_int64.
    rewrite (Hin Hlow). unfold limit_offset.
    replace (Z.min n 50 <? 0)%Z with true by (symmetry; apply Z.ltb_lt; lia).
    reflexivity.
Qed.

Lemma C9_negative_limit_witness :
  Num.parseInt (query_or (history_call "1" "-1") "limit" "10") = Some (Num.Fin (-1))
  /\ as_int64 (history_offset (history_call "1" "-1")) = Some 0%Z
  /\ rows_of fifty_one (userId (history_call "1" "-1")) = 51%Z
  /\ snd (fst (history_bindings (history_call "1" "-1")))
     = Some (Num.Fin (Z.min (-1) 50))
  /\ (query (history_call "1" "-1") "limit" = None
      \/ query (history_call "1" "-1") "limit" = Some "" -> (-1 = 10)%Z)
  /\ ((0 <= -1)%Z ->
      history_rows (history_call "1" "-1") fifty_one
      = Some (Z.min (Z.min (-1) 50)
                (Z.max 0 (rows_of fifty_one (userId (history_call "1" "-1"))
                          - Z.max 0 0))))
  /\ ((-1 < 0)%Z -> (- 2 ^ 63 <= -1)%Z ->
      history_rows (history_call "1" "-1") fifty_one
      = Some (Z.max 0 (rows_of fifty_one (userId (history_call "1" "-1")) - Z.max 0 0))).
Proof.
  split; [vm_compute; reflexivity|]. split; [vm_compute; reflexivity|].
  split; [vm_compute; reflexivity|].
  apply (C9_negative_limit_is_not_capped (history_call "1" "-1") fifty_one (-1) 0).
  - vm_compute. reflexivity.
  - vm_compute. reflexivity.
Defined.

(** Values up to the cap pass through [Math.min] unchanged, negative ones
    included; a value that does not parse gives NaN.  With [limit=-1] the
    query returns all 51 rows of an account that has 51. *)
Example history_limit_passes_small_values :
  history_limit (Context pricing_page "u1"
                   (fun name => if String.eqb name "limit" then Some "25" else None)
                   healthy) = Some (Num.Fin 25)
  /\ history_limit (Context pricing_page "u1"
                      (fun name => if String.eqb name "limit" then Some "500" else None)
                      healthy) = Some (Num.Fin 50)
  /\ history_limit (Context pricing_page "u1"
                      (fun name => if String.eqb name "limit" then Some "-1" else None)
                      healthy) = Some (Num.Fin (-1))
  /\ history_limit (Context pricing_page "u1"
                      (fun name => if String.eqb name "limit" then Some "all" else None)
                      healthy) = None
  /\ history_rows (history_call "1" "-1") fifty_one = Some 51%Z
  /\ history_rows (history_call "1" "50") fifty_one = Some 50%Z
  /\ history_rows (history_call "2" "50") fifty_one = Some 1%Z
  /\ history_rows (history_call "1" "0") fifty_one = Some 0%Z.
Proof. vm_compute. repeat split; reflexivity. Qed.

(** * Further properties of the services and the routes *)

(** ** [getFileType] *)

Lemma lower_dot (c : ascii) : Ascii.eqb (lower c) "." = Ascii.eqb c ".".
Proof. destruct c as [[] [] [] [] [] [] [] []]; reflexivity. Qed.

Lemma lower_lower (c : ascii) : lower (lower c) = lower c.
Proof. destruct c as [[] [] [] [] [] [] [] []]; reflexivity. Qed.

Lemma toLowerCase_append (a b : string) :
  toLowerCase (a +:+ b) = toLowerCase a +:+ toLowerCase b.
Proof.
  induction a as [|c a IH]; [reflexivity|].
  rewrite append_cons. cbn [toLowerCase]. rewrite IH, append_cons. reflexivity.
Qed.

Lemma toLowerCase_twice (s : string) : toLowerCase (toLowerCase s) = toLowerCase s.
Proof.
  induction s as [|c s IH]; [reflexivity|].
  cbn [toLowerCase]. rewrite lower_lower, IH. reflexivity.
Qed.

Lemma last_segment_lower (s acc : string) :
  last_segment (toLowerCase s) (toLowerCase acc) = toLowerCase (last_segment s acc).
Proof.
  revert acc. induction s as [|c s IH]; intros acc; [reflexivity|].
  cbn [toLowerCase last_segment]. rewrite lower_dot.
  destruct (Ascii.eqb c ".").
  - apply (IH "").
  - rewrite <- IH, toLowerCase_append. reflexivity.
Qed.

Lemma last_segment_after_dot (base ext acc : string) :
  last_segment (base +:+ "." +:+ ext) acc = last_segment ext "".
Proof.
  revert acc. induction base as [|c base IH]; intros acc.
  - reflexivity.
  - rewrite append_cons. cbn [last_segment]. destruct (Ascii.eqb c "."); apply IH.
Qed.

(** The type [getFileType] gives a name does not depend on the case of its
    letters: the lower-cased name gets the same type. *)
Theorem getFileType_ignores_case (filename : string) :
  getFileType (toLowerCase filename) = getFileType filename.
Proof.
  unfold getFileType.
  pose proof (last_segment_lower filename "") as H. cbn [toLowerCase] in H.
  rewrite H, toLowerCase_twice. reflexivity.
Qed.

(** Only what follows the last dot of a name decides its type: a name
    [base.ext] gets the type of [ext], whatever [base] is, directories and
    earlier extensions included. *)
Theorem getFileType_reads_last_extension (base ext : string) :
  getFileType (base +:+ "." +:+ ext) = getFileType ext.
Proof. unfold getFileType. rewrite last_segment_after_dot. reflexivity. Qed.

(** [getFileType] never returns an empty or undefined type.  It returns one
    of the nine content types of the table and its default, except for a
    name whose lower-cased extension is [constructor] or [__proto__], for
    which the lookup in the object literal finds an inherited property. *)
Theorem getFileType_range (filename : string) :
  truthy (getFileType filename) = true
  /\ ((exists mime, In mime known_types /\ getFileType filename = JStr mime)
      \/ toLowerCase (last_segment filename "") = "constructor"
      \/ toLowerCase (last_segment filename "") = "__proto__").
Proof.
  unfold getFileType, typeMap, known_types.
  repeat match goal with
         | |- context [String.eqb ?a ?b] =>
             let E := fresh "E" in
             destruct (String.eqb a b) eqn:E;
             [ try (apply String.eqb_eq in E);
               split; [reflexivity|];
               first [ left; eexists; split; [|reflexivity]; cbn; tauto
                     | right; tauto ]
             | clear E ]
         end.
  split; [reflexivity|]. left. eexists. split; [|reflexivity]. cbn. tauto.
Qed.

(** ** [callV0API] *)

(** [callV0API] makes one request to the v0 endpoint when an API key is
    configured and none when the key is missing or empty; it never touches
    the tables or the blob store. *)
Theorem callV0API_effects (prompt type framework : string) (e : Env) (w : world) :
  let w' := snd (callV0API prompt type framework e w) in
  log w' = (log w ++ (if key_missing (V0_API_KEY e) then [] else [FetchV0]))%list
  /\ users w' = users w
  /\ generations w' = generations w
  /\ storage w' = storage w.
Proof.
  unfold callV0API. destruct (key_missing (V0_API_KEY e)).
  - cbn. rewrite app_nil_r. tauto.
  - unfold try_catch, fetch_v0, bind, emit, JSON_parse, lift_option.
    destruct (v0_fetch e) as [x|ok st b]; cbn; [tauto|].
    destruct ok; cbn; [|tauto].
    destruct (Json.parse b); cbn; [|tauto].
    destruct (transform j); cbn; tauto.
Qed.

Lemma js_or_truthy (a b : jsval) : truthy b = true -> truthy (js_or a b) = true.
Proof. unfold js_or. destruct (truthy a) eqn:E; auto. Qed.

Lemma transform_file_ok (file f : jsval) :
  transform_file file = Ok f ->
  exists (n : string) (content : jsval),
    prop file "name" = Some (JStr n)
    /\ f = JObj [("name", JStr n); ("content", content); ("type", getFileType n)].
Proof.
  unfold transform_file.
  destruct (prop file "name") as [name|]; [|discriminate].
  destruct (prop file "content") as [content|]; [|discriminate].
  destruct name; try discriminate.
  intros H. inversion H. eauto.
Qed.

Lemma map_files_ok (items fs : list jsval) :
  map_files items = Ok fs ->
  Forall2 (fun file f =>
             exists (n : string) (content : jsval),
               prop file "name" = Some (JStr n)
               /\ f = JObj [("name", JStr n); ("content", content);
                            ("type", getFileType n)])
          items fs.
Proof.
  revert fs. induction items as [|file rest IH]; intros fs H; cbn in H.
  - inversion H. constructor.
  - destruct (transform_file file) as [f|] eqn:Ef; [|discriminate].
    destruct (map_files rest) as [fs'|]; [|discriminate].
    inversion H; subst. constructor; [apply transform_file_ok, Ef | apply IH; reflexivity].
Qed.

Lemma map_files_unnamed (items : list jsval) (file : jsval) :
  In file items -> named file = false -> is_throw (map_files items) = true.
Proof.
  intros Hin Hname. induction items as [|f rest IH]; [destruct Hin|].
  cbn [map_files]. destruct (transform_file f) as [f'|] eqn:Ef; [|reflexivity].
  destruct Hin as [->|Hin].
  - apply transform_file_ok in Ef. destruct Ef as (n & c & Hn & _).
    unfold named in Hname. rewrite Hn in Hname. discriminate.
  - specialize (IH Hin). destruct (map_files rest); [discriminate|reflexivity].
Qed.

Lemma callV0API_ok (prompt type framework : string) (e : Env) (w w' : world) (v : jsval) :
  callV0API prompt type framework e w = (Ok v, w') ->
  exists (st : Z) (b : string) (result : jsval),
    v0_fetch e = FetchResponse true st b
    /\ Json.parse b = Some result
    /\ transform result = Ok v
    /\ w' = add_log FetchV0 w.
Proof.
  unfold callV0API. destruct (key_missing (V0_API_KEY e)); [discriminate|].
  unfold try_catch, fetch_v0, bind, emit, JSON_parse, lift_option.
  destruct (v0_fetch e) as [x|ok st b] eqn:Ev; cbn; [discriminate|].
  destruct ok; cbn; [|discriminate].
  destruct (Json.parse b) as [result|] eqn:Ep; cbn; [|discriminate].
  destruct (transform result) as [v'|] eqn:Et; cbn; [|discriminate].
  intros H. inversion H; subst. exists st, b, result. tauto.
Qed.

(** Whatever [callV0API] returns has the normalized shape: an object with a
    [files] array, a [description] and [instructions], both truthy; every
    file has a string name, its content and the type [getFileType] gives
    the name.  The handler's [generatedCode.files || []] is that array. *)
Theorem callV0API_result_shape
    (prompt type framework : string) (e : Env) (w w' : world) (v : jsval) :
  callV0API prompt type framework e w = (Ok v, w') ->
  exists (fs : list jsval) (description instructions : jsval),
    v = JObj [("files", JArr fs); ("description", description);
              ("instructions", instructions)]
    /\ truthy description = true
    /\ truthy instructions = true
    /\ Forall (fun f => exists (n : string) (content : jsval),
                 f = JObj [("name", JStr n); ("content", content);
                           ("type", getFileType n)]) fs
    /\ files_of v w' = (Ok fs, w').
Proof.
  intros H. apply callV0API_ok in H. destruct H as (st & b & result & _ & _ & Ht & _).
  unfold transform in Ht.
  destruct (transform_files result) as [files|] eqn:Ef; [|discriminate].
  inversion Ht; subst; clear Ht.
  assert (exists fs, files = JArr fs
          /\ Forall (fun f => exists (n : string) (content : jsval),
                       f = JObj [("name", JStr n); ("content", content);
                                 ("type", getFileType n)]) fs) as (fs & -> & Hfs).
  { unfold transform_files in Ef.
    destruct (prop result "files") as [fv|]; [|discriminate].
    destruct fv; try discriminate.
    - inversion Ef. exists []. split; [reflexivity|constructor].
    - inversion Ef. exists []. split; [reflexivity|constructor].
    - destruct (map_files items) as [fs|] eqn:Em; [|discriminate].
      inversion Ef. exists fs. split; [reflexivity|].
      apply map_files_ok in Em. clear -Em.
      induction Em as [|file f items fs (n & c & _ & ->) _ IH]; constructor; eauto. }
  exists fs. do 2 eexists. split; [reflexivity|].
  split; [apply js_or_truthy; reflexivity|].
  split; [apply js_or_truthy; reflexivity|].
  split; [exact Hfs|reflexivity].
Qed.

Lemma callV0API_result_shape_witness :
  callV0API "Build a pricing page" "page" "react" healthy (account 0)
  = (Ok (JObj [("files", JArr [JObj [("name", JStr "a.tsx"); ("content", JStr "X");
                                     ("type", JStr "text/tsx")]]);
               ("description", JStr "Generated with v0");
               ("instructions", JStr "Standard React component setup")]),
     add_log FetchV0 (account 0))
  /\ exists (fs : list jsval) (description instructions : jsval),
       JObj [("files", JArr [JObj [("name", JStr "a.tsx"); ("content", JStr "X");
                                   ("type", JStr "text/tsx")]]);
             ("description", JStr "Generated with v0");
             ("instructions", JStr "Standard React component setup")]
       = JObj [("files", JArr fs); ("description", description);
               ("instructions", instructions)]
       /\ truthy description = true
       /\ truthy instructions = true
       /\ Forall (fun f => exists (n : string) (content : jsval),
                    f = JObj [("name", JStr n); ("content", content);
                              ("type", getFileType n)]) fs
       /\ files_of (JObj [("files", JArr [JObj [("name", JStr "a.tsx");
                                                ("content", JStr "X");
                                                ("type", JStr "text/tsx")]]);
                          ("description", JStr "Generated with v0");
                          ("instructions", JStr "Standard React component setup")])
            (add_log FetchV0 (account 0))
          = (Ok fs, add_log FetchV0 (account 0)).
Proof.
  split; [vm_compute; reflexivity|].
  apply (callV0API_result_shape "Build a pricing page" "page" "react" healthy (account 0)).
  vm_compute. reflexivity.
Defined.

(** A v0 answer in which some entry of [files] has no string [name] is
    rejected as a whole: [callV0API] throws after its one request, no file
    of the answer is used, and the provider step runs the fallback model. *)
Theorem callV0API_rejects_unnamed_file
    (prompt type framework : string) (e : Env) (w : world)
    (st : Z) (b : string) (result : jsval) (items : list jsval) (file : jsval) :
  key_missing (V0_API_KEY e) = false ->
  v0_fetch e = FetchResponse true st b ->
  Json.parse b = Some result ->
  prop result "files" = Some (JArr items) ->
  In file items ->
  named file = false ->
  is_throw (fst (callV0API prompt type framework e w)) = true
  /\ snd (callV0API prompt type framework e w) = add_log FetchV0 w
  /\ provider_step prompt type framework e w
     = generateCode prompt type framework e (add_log FetchV0 w).
Proof.
  intros Hkey Hfetch Hparse Hfiles Hin Hname.
  pose proof (map_files_unnamed items file Hin Hname) as Hmap.
  assert (exists x, callV0API prompt type framework e w = (Throw x, add_log FetchV0 w))
    as [x Hx].
  { unfold callV0API. rewrite Hkey.
    unfold try_catch, fetch_v0, bind, emit, JSON_parse, lift_option.
    rewrite Hfetch. cbn. rewrite Hparse. cbn.
    unfold transform, transform_files. rewrite Hfiles.
    destruct (map_files items); [discriminate|]. cbn. eauto. }
  unfold provider_step, try_catch. rewrite Hx. cbn. tauto.
Qed.

Lemma callV0API_rejects_unnamed_file_witness :
  key_missing (V0_API_KEY primary_unnamed) = false
  /\ v0_fetch primary_unnamed = FetchResponse true 200 unnamed_file
  /\ Json.parse unnamed_file
     = Some (JObj [("files", JArr [JObj [("name", JStr "a.tsx")];
                                   JObj [("content", JStr "X")]])])
  /\ In (JObj [("content", JStr "X")])
        [JObj [("name", JStr "a.tsx")]; JObj [("content", JStr "X")]]
  /\ named (JObj [("content", JStr "X")]) = false
  /\ is_throw (fst (callV0API "Build a pricing page" "page" "react" primary_unnamed
                      (account 0))) = true
  /\ snd (callV0API "Build a pricing page" "page" "react" primary_unnamed (account 0))
     = add_log FetchV0 (account 0)
  /\ provider_step "Build a pricing page" "page" "react" primary_unnamed (account 0)
     = generateCode "Build a pricing page" "page" "react" primary_unnamed
         (add_log FetchV0 (account 0)).
Proof.
  split; [reflexivity|]. split; [reflexivity|].
  split; [vm_compute; reflexivity|].
  split; [simpl; tauto|]. split; [reflexivity|].
  apply (callV0API_rejects_unnamed_file "Build a pricing page" "page" "react"
           primary_unnamed (account 0) 200 unnamed_file
           (JObj [("files", JArr [JObj [("name", JStr "a.tsx")];
                                  JObj [("content", JStr "X")]])])
           [JObj [("name", JStr "a.tsx")]; JObj [("content", JStr "X")]]
           (JObj [("content", JStr "X")])).
  - reflexivity.
  - reflexivity.
  - vm_compute. reflexivity.
  - reflexivity.
  - simpl. tauto.
  - reflexivity.
Defined.

(** ** [generateCode] *)

(** [generateCode] makes exactly one call to the model and touches neither
    the tables nor the blob store.  Whatever goes wrong inside it, a
    rejected call, a reply without text or text that [JSON.parse] refuses,
    the caller sees the one error "AI code generation failed". *)
Theorem generateCode_fails_only_generically
    (prompt type framework : string) (e : Env) (w : world) :
  let r := generateCode prompt type framework e w in
  ((exists v, fst r = Ok v) \/ fst r = Throw (Error "AI code generation failed"))
  /\ log (snd r) = (log w ++ [AiRun])%list
  /\ users (snd r) = users w
  /\ generations (snd r) = generations w
  /\ storage (snd r) = storage w.
Proof.
  unfold generateCode, try_catch, run_ai, bind, emit, JSON_parse, lift_option.
  assert (forall (o : outcome jsval),
            (exists v, o = Ok v) \/ o = Throw (Error "AI code generation failed") ->
            ((exists v, o = Ok v) \/ o = Throw (Error "AI code generation failed"))
            /\ (log w ++ [AiRun])%list = (log w ++ [AiRun])%list
            /\ users w = users w /\ generations w = generations w
            /\ storage w = storage w) as Hpair by tauto.
  destruct (ai_run e) as [x|[aiText|]]; cbn.
  - apply Hpair; auto.
  - destruct (jsonMatch aiText) as [m|]; cbn.
    + destruct (Json.parse (matched_text m)); cbn; apply Hpair; eauto.
    + apply Hpair; eauto.
  - apply Hpair; auto.
Qed.

Lemma upto_last_brace_absent (s : string) :
  mentions "}" s = false -> Regex.upto_last_brace s = None.
Proof.
  induction s as [|c s IH]; [reflexivity|].
  cbn [mentions Regex.upto_last_brace]. intros H.
  apply orb_false_elim in H. destruct H as [Hc Hs].
  rewrite (IH Hs), Hc. reflexivity.
Qed.

Lemma upto_last_brace_closed (b post : string) :
  mentions "}" post = false ->
  Regex.upto_last_brace (b +:+ "}" +:+ post) = Some (b +:+ "}").
Proof.
  intros Hpost. induction b as [|c b IH].
  - change ("" +:+ "}" +:+ post) with (String "}" post).
    cbn [Regex.upto_last_brace]. rewrite (upto_last_brace_absent post Hpost).
    reflexivity.
  - change (String c b +:+ "}" +:+ post) with (String c (b +:+ "}" +:+ post)).
    cbn [Regex.upto_last_brace]. rewrite IH. reflexivity.
Qed.

Lemma match_braces_skip (pre s : string) :
  mentions "{" pre = false ->
  Regex.match_braces (pre +:+ s) = Regex.match_braces s.
Proof.
  induction pre as [|c pre IH]; intros H.
  - rewrite append_empty. reflexivity.
  - cbn [mentions] in H. apply orb_false_elim in H. destruct H as [Hc Hpre].
    rewrite append_cons. cbn [Regex.match_braces]. rewrite Hc. apply IH, Hpre.
Qed.

Lemma match_braces_object (pre b post : string) :
  mentions "{" pre = false ->
  mentions "}" post = false ->
  Regex.match_braces (pre +:+ "{" +:+ b +:+ "}" +:+ post)
  = Some (Regex.Match ("{" +:+ b +:+ "}") None).
Proof.
  intros Hpre Hpost. rewrite (match_braces_skip pre _ Hpre).
  change ("{" +:+ b +:+ "}" +:+ post) with (String "{" (b +:+ "}" +:+ post)).
  cbn [Regex.match_braces].
  replace (Ascii.eqb "{" "{") with true by reflexivity.
  rewrite (upto_last_brace_closed b post Hpost). reflexivity.
Qed.

(** A reply without a json fence that wraps an object in prose, with no
    opening brace in the prose before it and no closing brace in the prose
    after it, is reduced to that object: [generateCode] returns what
    [JSON.parse] makes of the text from the first opening brace to the last
    closing brace, and fails when that text does not parse. *)
Theorem generateCode_strips_prose_around_object
    (prompt type framework : string) (e : Env) (w : world) (pre b post : string) :
  ai_run e = AiReturns (Some (pre +:+ "{" +:+ b +:+ "}" +:+ post)) ->
  Regex.match_fence (pre +:+ "{" +:+ b +:+ "}" +:+ post) = None ->
  mentions "{" pre = false ->
  mentions "}" post = false ->
  fst (generateCode prompt type framework e w) = parse_or_fail ("{" +:+ b +:+ "}").
Proof.
  intros Hrun Hfence Hpre Hpost.
  unfold generateCode, try_catch, run_ai, bind, emit, JSON_parse, lift_option.
  rewrite Hrun. cbn. unfold jsonMatch. rewrite Hfence.
  rewrite (match_braces_object pre b post Hpre Hpost).
  unfold matched_text, parse_or_fail. cbn [Regex.group1 Regex.whole].
  destruct (Json.parse ("{" +:+ b +:+ "}")); reflexivity.
Qed.

Lemma generateCode_strips_prose_witness :
  ai_run (model_says chatty_reply)
  = AiReturns (Some ("Sure! Here is the code: " +:+ "{" +:+ one_file_inner +:+ "}"
                       +:+ " Let me know if it helps."))
  /\ Regex.match_fence ("Sure! Here is the code: " +:+ "{" +:+ one_file_inner +:+ "}"
                          +:+ " Let me know if it helps.") = None
  /\ mentions "{" "Sure! Here is the code: " = false
  /\ mentions "}" " Let me know if it helps." = false
  /\ fst (generateCode "Build a pricing page" "page" "react" (model_says chatty_reply)
            (account 0))
     = parse_or_fail ("{" +:+ one_file_inner +:+ "}")
  /\ parse_or_fail ("{" +:+ one_file_inner +:+ "}")
     = Ok (JObj [("files", JArr [JObj [("name", JStr "a.tsx"); ("content", JStr "X")]])]).
Proof.
  split; [vm_compute; reflexivity|]. split; [vm_compute; reflexivity|].
  split; [reflexivity|]. split; [reflexivity|].
  split; [|vm_compute; reflexivity].
  apply (generateCode_strips_prose_around_object
           "Build a pricing page" "page" "react" (model_says chatty_reply) (account 0)
           "Sure! Here is the code: " one_file_inner " Let me know if it helps.").
  - vm_compute. reflexivity.
  - vm_compute. reflexivity.
  - reflexivity.
  - reflexivity.
Defined.

(** ** The provider step of the handler *)

Lemma generateCode_outcome (prompt type framework : string) (e : Env) (w : world) :
  (exists v, fst (generateCode prompt type framework e w) = Ok v)
  \/ fst (generateCode prompt type framework e w)
     = Throw (Error "AI code generation failed").
Proof.
  unfold generateCode, try_catch, run_ai, bind, emit, JSON_parse, lift_option.
  destruct (ai_run e) as [x|[aiText|]]; cbn; auto.
  destruct (jsonMatch aiText) as [m|]; cbn; eauto.
  destruct (Json.parse (matched_text m)); cbn; eauto.
Qed.

(** When the primary provider returns, the provider step returns the same
    value and the fallback model is not called: the request to v0 is the
    only call that leaves the worker. *)
Theorem provider_step_prefers_primary
    (prompt type framework : string) (e : Env) (w w1 : world) (v : jsval) :
  callV0API prompt type framework e w = (Ok v, w1) ->
  provider_step prompt type framework e w = (Ok v, w1)
  /\ log (snd (provider_step prompt type framework e w)) = (log w ++ [FetchV0])%list.
Proof.
  intros H. unfold provider_step, try_catch. rewrite H. split; [reflexivity|].
  apply callV0API_ok in H. destruct H as (_ & _ & _ & _ & _ & _ & ->). reflexivity.
Qed.

Lemma provider_step_prefers_primary_witness :
  callV0API "Build a pricing page" "page" "react" healthy (account 0)
  = (Ok (JObj [("files", JArr [JObj [("name", JStr "a.tsx"); ("content", JStr "X");
                                     ("type", JStr "text/tsx")]]);
               ("description", JStr "Generated with v0");
               ("instructions", JStr "Standard React component setup")]),
     add_log FetchV0 (account 0))
  /\ provider_step "Build a pricing page" "page" "react" healthy (account 0)
     = (Ok (JObj [("files", JArr [JObj [("name", JStr "a.tsx"); ("content", JStr "X");
                                        ("type", JStr "text/tsx")]]);
                  ("description", JStr "Generated with v0");
                  ("instructions", JStr "Standard React component setup")]),
        add_log FetchV0 (account 0))
  /\ log (snd (provider_step "Build a pricing page" "page" "react" healthy (account 0)))
     = (log (account 0) ++ [FetchV0])%list.
Proof.
  split; [vm_compute; reflexivity|].
  apply (provider_step_prefers_primary "Build a pricing page" "page" "react" healthy
           (account 0)).
  vm_compute. reflexivity.
Defined.

(** The provider step can fail in one way only: with the error "AI code
    generation failed", after the fallback model has been called.  The
    error of the primary provider never leaves the step, so it is never the
    message the handler's [catch] block sees; and the step writes to no
    table and to no blob. *)
Theorem provider_step_fails_only_generically
    (prompt type framework : string) (e : Env) (w : world) :
  let r := provider_step prompt type framework e w in
  ((exists v, fst r = Ok v)
   \/ (fst r = Throw (Error "AI code generation failed")
       /\ exists calls, log (snd r) = (log w ++ calls ++ [AiRun])%list))
  /\ users (snd r) = users w
  /\ generations (snd r) = generations w
  /\ storage (snd r) = storage w.
Proof.
  cbn zeta. unfold provider_step, try_catch.
  pose proof (callV0API_world prompt type framework e w) as Hw.
  destruct (callV0API prompt type framework e w) as [[v|x] w1] eqn:Hv0; cbn in Hw.
  - cbn. split; [eauto|]. destruct Hw as [->| ->]; cbn; tauto.
  - pose proof (generateCode_world prompt type framework e w1) as Hg.
    pose proof (generateCode_outcome prompt type framework e w1) as Ho.
    destruct (generateCode prompt type framework e w1) as [o w2]. cbn in *. subst w2.
    split.
    + destruct Ho as [Ho| ->]; [left; exact Ho|right]. split; [reflexivity|].
      destruct Hw as [->| ->]; cbn.
      * exists []. reflexivity.
      * exists [FetchV0]. rewrite <- app_assoc. reflexivity.
    + destruct Hw as [->| ->]; cbn; tauto.
Qed.

(** ** GET /generation/:id *)

(** GET /:id answers 200 exactly when a row with the requested id exists and
    belongs to the caller, and the body is then that row.  In every other
    case in which the SELECT returns, the answer is the same 404: a row of
    another account cannot be told from a row that does not exist. *)
Theorem get_generation_scoped_to_owner (generationId userId : string) (w : world) :
  let r := get_generation None generationId userId w in
  (status r = 200%Z
   <-> exists row, generations w !! generationId = Some row /\ g_user_id row = userId)
  /\ (status r = 200%Z \/ r = not_found)
  /\ match generations w !! generationId with
     | Some row =>
         g_user_id row = userId ->
         r = Response 200 (JObj [("generation", row_object generationId row)])
     | None => r = not_found
     end.
Proof.
  cbn zeta. unfold get_generation, select_generation.
  destruct (generations w !! generationId) as [row|] eqn:Hrow.
  - destruct (String.eqb (g_user_id row) userId) eqn:Hu.
    + apply String.eqb_eq in Hu. cbn. split; [|tauto].
      split; [eauto|reflexivity].
    + apply String.eqb_neq in Hu. cbn. split; [|split; [tauto|tauto]].
      split; [discriminate|]. intros (row' & Hr & Ho). congruence.
  - cbn. split; [|tauto]. split; [discriminate|]. intros (row' & Hr & _). discriminate.
Qed.

(** ** GET /generation/history *)



(** Beyond the exact range the product is rounded: at page 2^52 and limit
    50 the offsets of two consecutive pages differ by 64. *)
Example history_offset_rounds :
  history_offset (history_call "4503599627370496" "50")
  = Some (Num.Fin 225179981368524736)
  /\ history_offset (history_call "4503599627370497" "50")
     = Some (Num.Fin 225179981368524800).
Proof. vm_compute. split; reflexivity. Qed.

(** The defaults of GET /history replace a parameter that is absent or
    empty, not one that does not parse: a [page] that does not start with a
    number makes the page and the offset NaN, and a [limit] that does not
    makes the limit and the offset NaN, the cap of 50 notwithstanding. *)
Theorem history_defaults_only_when_absent (c : context) (s : string) :
  s <> "" ->
  Num.parseInt s = None ->
  (query c "page" = Some s -> history_page c = None /\ history_offset c = None)
  /\ (query c "limit" = Some s -> history_limit c = None /\ history_offset c = None)
  /\ (query c "page" = None \/ query c "page" = Some ""
      -> history_page c = Some (Num.Fin 1)).
Proof.
  intros Hs Hnan.
  assert (String.eqb s "" = false) as Hne by (apply String.eqb_neq; exact Hs).
  split; [|split].
  - intros Hq. unfold history_offset, history_page, query_or. rewrite Hq, Hne, Hnan.
    split; reflexivity.
  - intros Hq. unfold history_offset, history_limit, query_or. rewrite Hq, Hne, Hnan.
    split; [reflexivity|]. cbn [Num.min].
    destruct (Num.sub (history_page c) (Some (Num.Fin 1))) as [[z|neg]|]; reflexivity.
  - intros [Hq|Hq]; unfold history_page, query_or; rewrite Hq; vm_compute; reflexivity.
Qed.

Lemma history_defaults_only_when_absent_witness :
  "abc" <> ""
  /\ Num.parseInt "abc" = None
  /\ (query (history_call "abc" "abc") "page" = Some "abc" ->
      history_page (history_call "abc" "abc") = None
      /\ history_offset (history_call "abc" "abc") = None)
  /\ (query (history_call "abc" "abc") "limit" = Some "abc" ->
      history_limit (history_call "abc" "abc") = None
      /\ history_offset (history_call "abc" "abc") = None)
  /\ (query (history_call "abc" "abc") "page" = None
      \/ query (history_call "abc" "abc") "page" = Some "" ->
      history_page (history_call "abc" "abc") = Some (Num.Fin 1)).
Proof.
  split; [discriminate|]. split; [reflexivity|].
  apply (history_defaults_only_when_absent (history_call "abc" "abc") "abc").
  - discriminate.
  - reflexivity.
Defined.

(** ** Replies with a fenced object *)

Lemma skip_space_all (sp s : string) :
  all_space sp = true -> Regex.skip_space (sp +:+ s) = Regex.skip_space s.
Proof.
  induction sp as [|c sp IH]; intros H; [reflexivity|].
  cbn [all_space] in H. apply andb_prop in H. destruct H as [Hc Hsp].
  rewrite append_cons, skip_space_cons, Hc. apply IH, Hsp.
Qed.

Lemma leading_space_all (sp s : string) :
  all_space sp = true ->
  Regex.leading_space (sp +:+ s) = sp +:+ Regex.leading_space s.
Proof.
  induction sp as [|c sp IH]; intros H; [reflexivity|].
  cbn [all_space] in H. apply andb_prop in H. destruct H as [Hc Hsp].
  rewrite !append_cons. cbn [Regex.leading_space]. rewrite Hc, (IH Hsp). reflexivity.
Qed.

Lemma leading_space_solid (c : ascii) (s : string) :
  Regex.is_space c = false -> Regex.leading_space (String c s) = "".
Proof. intros H. cbn [Regex.leading_space]. rewrite H. reflexivity. Qed.

Lemma starts_with_fence_cons (c : ascii) (s : string) :
  Ascii.eqb c "`" = false -> starts_with Regex.fence (String c s) = false.
Proof.
  intros H. unfold Regex.fence. cbn [starts_with].
  rewrite Ascii.eqb_sym, H. reflexivity.
Qed.

Lemma no_fence_before (g : string) (c : ascii) (rest : string) :
  mentions "`" g = false ->
  Regex.is_space c = false ->
  Ascii.eqb c "`" = false ->
  starts_with Regex.fence (Regex.skip_space (g +:+ String c rest)) = false.
Proof.
  intros Hg Hsp Hc. induction g as [|d g IH].
  - rewrite append_empty, skip_space_cons, Hsp. apply starts_with_fence_cons, Hc.
  - cbn [mentions] in Hg. apply orb_false_elim in Hg. destruct Hg as [Hd Hg].
    rewrite append_cons, skip_space_cons.
    destruct (Regex.is_space d); [apply IH, Hg|].
    apply starts_with_fence_cons, Hd.
Qed.

Lemma lazy_group_through (g : string) (c : ascii) (rest gr sp : string) :
  mentions "`" g = false ->
  Regex.is_space c = false ->
  Ascii.eqb c "`" = false ->
  Regex.lazy_group (String c rest) = Some (gr, sp) ->
  Regex.lazy_group (g +:+ String c rest) = Some (g +:+ gr, sp).
Proof.
  intros Hg Hsp Hc Hrest. induction g as [|d g IH].
  - rewrite !append_empty. exact Hrest.
  - pose proof (no_fence_before (String d g) c rest Hg Hsp Hc) as Hno.
    cbn [mentions] in Hg. apply orb_false_elim in Hg. destruct Hg as [Hd Hg].
    rewrite lazy_group_eq, Hno. rewrite append_cons, (IH Hg), append_cons.
    reflexivity.
Qed.

Lemma lazy_group_closing (c : ascii) (sp post : string) :
  Regex.is_space c = false ->
  Ascii.eqb c "`" = false ->
  all_space sp = true ->
  Regex.lazy_group (String c (sp +:+ Regex.fence +:+ post)) = Some (String c "", sp).
Proof.
  intros Hsp Hc Hall.
  rewrite lazy_group_eq, skip_space_cons, Hsp, (starts_with_fence_cons c _ Hc).
  rewrite lazy_group_eq, (skip_space_all sp _ Hall).
  replace (Regex.skip_space (Regex.fence +:+ post)) with (Regex.fence +:+ post)
    by reflexivity.
  rewrite starts_with_append, (leading_space_all sp _ Hall).
  replace (Regex.leading_space (Regex.fence +:+ post)) with "" by reflexivity.
  replace (sp +:+ "") with sp; [reflexivity|].
  clear. induction sp as [|d sp IH]; [reflexivity|].
  rewrite append_cons, <- IH. reflexivity.
Qed.

Lemma match_fence_skip (pre s : string) :
  mentions "`" pre = false ->
  Regex.match_fence (pre +:+ s) = Regex.match_fence s.
Proof.
  induction pre as [|c pre IH]; intros H.
  - rewrite append_empty. reflexivity.
  - cbn [mentions] in H. apply orb_false_elim in H. destruct H as [Hc Hpre].
    rewrite append_cons. cbn [Regex.match_fence].
    unfold Regex.fence_here at 1. cbn [starts_with].
    rewrite Ascii.eqb_sym, Hc. cbn [andb]. apply IH, Hpre.
Qed.

Lemma match_fence_object (pre sp1 b sp2 post : string) :
  mentions "`" pre = false ->
  all_space sp1 = true ->
  mentions "`" b = false ->
  all_space sp2 = true ->
  exists whole,
    Regex.match_fence (pre +:+ "```json" +:+ sp1 +:+ "{" +:+ b +:+ "}" +:+ sp2
                         +:+ "```" +:+ post)
    = Some (Regex.Match whole (Some ("{" +:+ b +:+ "}"))).
Proof.
  intros Hpre Hsp1 Hb Hsp2. rewrite (match_fence_skip pre _ Hpre).
  assert (Regex.lazy_group ("{" +:+ b +:+ "}" +:+ sp2 +:+ "```" +:+ post)
          = Some ("{" +:+ b +:+ "}", sp2)) as Hlazy.
  { change ("{" +:+ b +:+ "}" +:+ sp2 +:+ "```" +:+ post)
      with (String "{" b +:+ String "}" (sp2 +:+ Regex.fence +:+ post)).
    change ("{" +:+ b +:+ "}") with (String "{" b +:+ String "}" "").
    apply lazy_group_through.
    - cbn [mentions]. rewrite Hb. reflexivity.
    - reflexivity.
    - reflexivity.
    - apply lazy_group_closing; [reflexivity|reflexivity|exact Hsp2]. }
  set (tail := "{" +:+ b +:+ "}" +:+ sp2 +:+ "```" +:+ post) in *.
  assert (Regex.skip_space (sp1 +:+ tail) = tail) as Hskip.
  { rewrite (skip_space_all sp1 _ Hsp1). reflexivity. }
  eexists.
  change ("```json" +:+ sp1 +:+ tail)
    with (String "`" (String "`" (String "`" (String "j" (String "s" (String "o"
            (String "n" (sp1 +:+ tail)))))))).
  cbn [Regex.match_fence]. unfold Regex.fence_here.
  cbn [starts_with drop].
  replace (Ascii.eqb "`" "`") with true by reflexivity.
  replace (Ascii.eqb "j" "j") with true by reflexivity.
  replace (Ascii.eqb "s" "s") with true by reflexivity.
  replace (Ascii.eqb "o" "o") with true by reflexivity.
  replace (Ascii.eqb "n" "n") with true by reflexivity.
  cbn [andb]. rewrite Hskip, Hlazy. reflexivity.
Qed.

(** A reply that carries an object in a json fence is reduced to that
    object: when no backquote occurs before the fence or inside the object,
    and only white space separates the object from the fences around it,
    [generateCode] returns what [JSON.parse] makes of the object, whatever
    follows the closing fence, and fails when the object does not parse. *)
Theorem generateCode_reads_fenced_object
    (prompt type framework : string) (e : Env) (w : world)
    (pre sp1 b sp2 post : string) :
  ai_run e = AiReturns (Some (pre +:+ "```json" +:+ sp1 +:+ "{" +:+ b +:+ "}" +:+ sp2
                                +:+ "```" +:+ post)) ->
  mentions "`" pre = false ->
  all_space sp1 = true ->
  mentions "`" b = false ->
  all_space sp2 = true ->
  fst (generateCode prompt type framework e w) = parse_or_fail ("{" +:+ b +:+ "}").
Proof.
  intros Hrun Hpre Hsp1 Hb Hsp2.
  destruct (match_fence_object pre sp1 b sp2 post Hpre Hsp1 Hb Hsp2) as [whole Hm].
  unfold generateCode, try_catch, run_ai, bind, emit, JSON_parse, lift_option.
  rewrite Hrun. cbn. unfold jsonMatch. rewrite Hm.
  unfold matched_text, parse_or_fail. cbn [Regex.group1 Regex.whole].
  change ("{" +:+ b +:+ "}") with (String "{" (b +:+ "}")).
  cbn [String.eqb].
  replace (Ascii.eqb "{" "{") with true by reflexivity.
  destruct (Json.parse (String "{" (b +:+ "}"))); reflexivity.
Qed.

Lemma generateCode_reads_fenced_object_witness :
  ai_run (model_says fenced_reply)
  = AiReturns (Some ("Here you go:
" +:+ "```json" +:+ "
" +:+ "{" +:+ one_file_inner +:+ "}" +:+ "
" +:+ "```" +:+ "
Paste it into `src/` and run the {dev} server."))
  /\ mentions "`" "Here you go:
" = false
  /\ all_space "
" = true
  /\ mentions "`" one_file_inner = false
  /\ fst (generateCode "Build a pricing page" "page" "react" (model_says fenced_reply)
            (account 0))
     = parse_or_fail ("{" +:+ one_file_inner +:+ "}")
  /\ parse_or_fail ("{" +:+ one_file_inner +:+ "}")
     = Ok (JObj [("files", JArr [JObj [("name", JStr "a.tsx"); ("content", JStr "X")]])]).
Proof.
  split; [vm_compute; reflexivity|]. split; [reflexivity|]. split; [reflexivity|].
  split; [vm_compute; reflexivity|]. split; [|vm_compute; reflexivity].
  apply (generateCode_reads_fenced_object
           "Build a pricing page" "page" "react" (model_says fenced_reply) (account 0)
           "Here you go:
" "
" one_file_inner "
" "
Paste it into `src/` and run the {dev} server.").
  - vm_compute. reflexivity.
  - reflexivity.
  - reflexivity.
  - vm_compute. reflexivity.
  - reflexivity.
Defined.

(** ** The mail service *)

(** Each of the two functions of the mail service makes one request to the
    mail provider, for a message to the given address whose link is the
    fixed URL followed by the token as it is.  The function returns exactly
    when the provider answers with an ok status; a rejected request and an
    answer that is not ok both surface as the one fixed error of the
    function, without the provider's text. *)
Theorem mail_service_fails_only_generically
    (email token : string) (e : AuthEnv) (s : auth_world) :
  let v := sendVerificationEmail email token e s in
  let r := sendPasswordResetEmail email token e s in
  (fst v = Ok tt \/ fst v = Throw (Error "Failed to send verification email"))
  /\ (fst r = Ok tt \/ fst r = Throw (Error "Failed to send password reset email"))
  /\ (fst v = Ok tt <-> exists st b, resend_fetch e = FetchResponse true st b)
  /\ (fst r = Ok tt <-> exists st b, resend_fetch e = FetchResponse true st b)
  /\ snd v = AuthWorld (accounts s)
               (mails s ++ [Mail email "Verify your ThisAICodes account"
                              ("https://thisaicodes.com/auth/verify?token=" +:+ token)])
  /\ snd r = AuthWorld (accounts s)
               (mails s ++ [Mail email "Reset your ThisAICodes password"
                              ("https://thisaicodes.com/auth/reset-password?token="
                                 +:+ token)]).
Proof.
  cbn zeta. unfold sendVerificationEmail, sendPasswordResetEmail, acatch, post_mail, athrow.
  destruct (resend_fetch e) as [x|ok st b]; cbn.
  - repeat split; auto; try discriminate; intros (st & b & H); discriminate.
  - destruct ok; cbn.
    + repeat split; eauto.
    + repeat split; auto; try discriminate; intros (st' & b' & H); discriminate.
Qed.

(** ** POST /auth/verify-email *)

Lemma find_unique {T} (p : T -> bool) (l : list T) (x u : T) :
  List.length (List.filter p l) <= 1 ->
  find p l = Some x -> In u l -> p u = true -> u = x.
Proof.
  induction l as [|y l IH]; intros Hlen Hfind Hin Hp; [destruct Hin|].
  cbn in Hlen, Hfind. destruct (p y) eqn:Hy.
  - inversion Hfind; subst. destruct Hin as [->|Hin]; [reflexivity|].
    cbn in Hlen. destruct (List.filter p l) as [|z rest] eqn:Hf; [|cbn in Hlen; lia].
    assert (In u (List.filter p l)) as Hu by (apply filter_In; tauto).
    rewrite Hf in Hu. destruct Hu.
  - destruct Hin as [->|Hin]; [congruence|]. apply IH; assumption.
Qed.

Lemma find_none_iff {T} (p : T -> bool) (l : list T) :
  find p l = None <-> forall u, In u l -> p u = false.
Proof.
  induction l as [|y l IH]; cbn.
  - split; [intros _ u []|reflexivity].
  - destruct (p y) eqn:Hy.
    + split; [discriminate|]. intros H. specialize (H y (or_introl eq_refl)). congruence.
    + rewrite IH. split.
      * intros H u [<-|Hu]; [exact Hy|apply H, Hu].
      * intros H u Hu. apply H. right. exact Hu.
Qed.

Lemma pending_verified (token at_ : string) (u : user_account) :
  pending token (verified at_ u) = false.
Proof. reflexivity. Qed.

Lemma verify_email_cases (e : AuthEnv) (token : string) (s : auth_world) :
  (verify_email e token s = (Ok internal_error, s)
   /\ (statement_error e SelectByToken <> None
       \/ (statement_error e UpdateVerified <> None
           /\ find (pending token) (accounts s) <> None)))
  \/ (verify_email e token s = (Ok invalid_token, s)
      /\ statement_error e SelectByToken = None
      /\ find (pending token) (accounts s) = None)
  \/ (exists user,
        verify_email e token s
        = (Ok email_verified,
           set_accounts (update_where_id (verified (today e)) (a_id user) (accounts s)) s)
        /\ statement_error e SelectByToken = None
        /\ statement_error e UpdateVerified = None
        /\ find (pending token) (accounts s) = Some user).
Proof.
  unfold verify_email, acatch, abind, select_by_token, update_verified, run, areturn, athrow.
  destruct (statement_error e SelectByToken) as [x|] eqn:Hsel.
  - left. split; [reflexivity|]. left. discriminate.
  - destruct (find (pending token) (accounts s)) as [user|] eqn:Hfind.
    + destruct (statement_error e UpdateVerified) as [x|] eqn:Hup.
      * left. split; [reflexivity|]. right. split; discriminate.
      * right. right. exists user. tauto.
    + right. left. tauto.
Qed.

(** A verification token works once.  After a request with the token has
    been answered with success, and provided that no second unverified
    account held the same token, every later request with it is answered
    400 "Invalid or expired verification token" and changes nothing. *)
Theorem verify_email_token_is_single_use
    (e e' : AuthEnv) (token : string) (s : auth_world) :
  fst (verify_email e token s) = Ok email_verified ->
  List.length (List.filter (pending token) (accounts s)) <= 1 ->
  statement_error e' SelectByToken = None ->
  verify_email e' token (snd (verify_email e token s))
  = (Ok invalid_token, snd (verify_email e token s)).
Proof.
  intros Hok Hone Hsel'.
  destruct (verify_email_cases e token s)
    as [[Heq _]|[[Heq _]|(user & Heq & _ & _ & Hfind)]];
    rewrite Heq in Hok |- *; cbn in Hok; try discriminate.
  cbn [snd].
  destruct (verify_email_cases e' token
              (set_accounts (update_where_id (verified (today e)) (a_id user) (accounts s)) s))
    as [[_ [Hf|[_ Hf]]]|[[Heq' _]|(user' & _ & _ & _ & Hfind')]].
  - congruence.
  - exfalso. apply Hf. apply find_none_iff. intros u Hu.
    cbn in Hu. unfold update_where_id in Hu. apply in_map_iff in Hu.
    destruct Hu as (u0 & <- & Hu0).
    destruct (String.eqb (a_id u0) (a_id user)) eqn:Hid; [reflexivity|].
    destruct (pending token u0) eqn:Hp; [|reflexivity].
    rewrite (find_unique _ _ _ _ Hone Hfind Hu0 Hp), String.eqb_refl in Hid.
    discriminate.
  - exact Heq'.
  - exfalso. cbn in Hfind'. apply find_some in Hfind'. destruct Hfind' as [Hu Hp'].
    unfold update_where_id in Hu. apply in_map_iff in Hu.
    destruct Hu as (u0 & Hu0eq & Hu0). subst user'.
    destruct (String.eqb (a_id u0) (a_id user)) eqn:Hid; [discriminate|].
    rewrite (find_unique _ _ _ _ Hone Hfind Hu0 Hp'), String.eqb_refl in Hid.
    discriminate.
Qed.

Lemma verify_email_token_is_single_use_witness :
  fst (verify_email mail_up "t-bob" two_accounts) = Ok email_verified
  /\ List.length (List.filter (pending "t-bob") (accounts two_accounts)) <= 1
  /\ statement_error mail_up SelectByToken = None
  /\ verify_email mail_up "t-bob" (snd (verify_email mail_up "t-bob" two_accounts))
     = (Ok invalid_token, snd (verify_email mail_up "t-bob" two_accounts)).
Proof.
  split; [reflexivity|]. split; [simpl; lia|]. split; [reflexivity|].
  apply (verify_email_token_is_single_use mail_up mail_up "t-bob" two_accounts).
  - reflexivity.
  - simpl. lia.
  - reflexivity.
Defined.

(** POST /auth/verify-email always answers, with 200, 400 or 500.  It adds
    and removes no account, sends no mail, and leaves the id, the address,
    the password hash, the name, the last login and the deletion mark of
    every account as they were; an account that was verified stays
    verified. *)
Theorem verify_email_keeps_accounts (e : AuthEnv) (token : string) (s : auth_world) :
  let r := verify_email e token s in
  (fst r = Ok email_verified \/ fst r = Ok invalid_token \/ fst r = Ok internal_error)
  /\ mails (snd r) = mails s
  /\ Forall2 (fun u u' =>
                a_id u' = a_id u /\ a_email u' = a_email u
                /\ a_password_hash u' = a_password_hash u /\ a_name u' = a_name u
                /\ a_last_login_at u' = a_last_login_at u
                /\ a_created_at u' = a_created_at u
                /\ a_deleted_at u' = a_deleted_at u
                /\ (a_email_verified u <> 0%Z -> a_email_verified u' <> 0%Z))
             (accounts s) (accounts (snd r)).
Proof.
  cbn zeta.
  assert (forall l : list user_account,
            Forall2 (fun u u' =>
                a_id u' = a_id u /\ a_email u' = a_email u
                /\ a_password_hash u' = a_password_hash u /\ a_name u' = a_name u
                /\ a_last_login_at u' = a_last_login_at u
                /\ a_created_at u' = a_created_at u
                /\ a_deleted_at u' = a_deleted_at u
                /\ (a_email_verified u <> 0%Z -> a_email_verified u' <> 0%Z)) l l)
    as Hsame.
  { induction l; constructor; [tauto|assumption]. }
  destruct (verify_email_cases e token s)
    as [[Heq _]|[[Heq _]|(user & Heq & _)]]; rewrite Heq; cbn [fst snd].
  - split; [tauto|]. split; [reflexivity|apply Hsame].
  - split; [tauto|]. split; [reflexivity|apply Hsame].
  - split; [tauto|]. split; [reflexivity|]. cbn. unfold update_where_id.
    clear Heq. generalize (accounts s) as l.
    induction l as [|u l IH]; cbn; [constructor|]. constructor; [|exact IH].
    destruct (String.eqb (a_id u) (a_id user)); cbn; repeat split; auto;
      intros _; discriminate.
Qed.

(** ** POST /auth/login *)

Lemma login_cases (e : AuthEnv) (email password : string) (s : auth_world) :
  fst (login e email password s) = Ok internal_error
  \/ login e email password s = (Ok invalid_credentials, s)
  \/ login e email password s = (Ok unverified, s)
  \/ exists user token,
       find (active email) (accounts s) = Some user
       /\ bcrypt_compare e password (a_password_hash user) = true
       /\ a_email_verified user <> 0%Z
       /\ jwt_sign e (token_payload user) = Ok token
       /\ login e email password s
          = (Ok (session token user),
             set_accounts
               (update_where_id (logged_in (today e)) (a_id user) (accounts s)) s).
Proof.
  unfold login, acatch, abind, select_active_by_email, update_last_login, run,
    areturn, athrow, of_outcome.
  destruct (statement_error e SelectActiveByEmail) as [x|]; [left; reflexivity|].
  destruct (find (active email) (accounts s)) as [user|] eqn:Hfind;
    [|right; left; reflexivity].
  destruct (bcrypt_compare e password (a_password_hash user)) eqn:Hpw; cbn;
    [|right; left; reflexivity].
  destruct (a_email_verified user =? 0)%Z eqn:Hv; [right; right; left; reflexivity|].
  apply Z.eqb_neq in Hv.
  destruct (jwt_sign e (token_payload user)) as [token|x] eqn:Hsign;
    [|left; reflexivity].
  destruct (statement_error e UpdateLastLogin) as [x|]; [left; reflexivity|].
  right. right. right. exists user, token. tauto.
Qed.

(** A login is answered with a token only for an account that has the
    given address, is not deleted, is verified and whose stored hash
    [bcrypt.compare] accepts for the given password.  The token is the one
    signed over that account's id, address and name, and the request changes
    nothing but the time of the last login of that account. *)
Theorem login_requires_verified_owner
    (e : AuthEnv) (email password : string) (s : auth_world) (r : response) :
  fst (login e email password s) = Ok r ->
  status r = 200%Z ->
  exists user token,
    In user (accounts s)
    /\ a_email user = email
    /\ a_deleted_at user = None
    /\ bcrypt_compare e password (a_password_hash user) = true
    /\ a_email_verified user <> 0%Z
    /\ jwt_sign e (token_payload user) = Ok token
    /\ r = session token user
    /\ snd (login e email password s)
       = AuthWorld (update_where_id (logged_in (today e)) (a_id user) (accounts s))
                   (mails s).
Proof.
  intros Hr Hst.
  destruct (login_cases e email password s)
    as [Heq|[Heq|[Heq|(user & token & Hfind & Hpw & Hv & Hsign & Heq)]]];
    rewrite Heq in Hr; cbn in Hr; inversion Hr; subst r; cbn in Hst; try discriminate.
  exists user, token. apply find_some in Hfind. destruct Hfind as [Hin Hact].
  unfold active in Hact. apply andb_prop in Hact. destruct Hact as [Hemail Hdel].
  apply String.eqb_eq in Hemail.
  destruct (a_deleted_at user) eqn:Hd; [discriminate|].
  rewrite Heq. cbn. tauto.
Qed.

Lemma login_requires_verified_owner_witness :
  fst (login mail_up "ada@example.com" "correct horse" two_accounts)
  = Ok (session "jwt:id-ada" ada)
  /\ status (session "jwt:id-ada" ada) = 200%Z
  /\ exists user token,
       In user (accounts two_accounts)
       /\ a_email user = "ada@example.com"
       /\ a_deleted_at user = None
       /\ bcrypt_compare mail_up "correct horse" (a_password_hash user) = true
       /\ a_email_verified user <> 0%Z
       /\ jwt_sign mail_up (token_payload user) = Ok token
       /\ session "jwt:id-ada" ada = session token user
       /\ snd (login mail_up "ada@example.com" "correct horse" two_accounts)
          = AuthWorld (update_where_id (logged_in (today mail_up)) (a_id user)
                         (accounts two_accounts))
                      (mails two_accounts).
Proof.
  split; [vm_compute; reflexivity|]. split; [reflexivity|].
  apply (login_requires_verified_owner mail_up "ada@example.com" "correct horse"
           two_accounts (session "jwt:id-ada" ada)).
  - vm_compute. reflexivity.
  - reflexivity.
Defined.

(** A login with an address that no account has, with the address of a
    deleted account or with a password that [bcrypt.compare] refuses gets
    the same answer, 401 "Invalid credentials", and changes nothing: the
    answer does not tell whether the address is registered. *)
Theorem login_hides_which_check_failed
    (e : AuthEnv) (email password : string) (s : auth_world) :
  statement_error e SelectActiveByEmail = None ->
  (forall u, In u (accounts s) -> a_email u = email -> a_deleted_at u = None ->
             bcrypt_compare e password (a_password_hash u) = false) ->
  login e email password s = (Ok invalid_credentials, s).
Proof.
  intros Hsel Hbad.
  unfold login, acatch, abind, select_active_by_email, run, areturn.
  rewrite Hsel.
  destruct (find (active email) (accounts s)) as [user|] eqn:Hfind; [|reflexivity].
  apply find_some in Hfind. destruct Hfind as [Hin Hact].
  unfold active in Hact. apply andb_prop in Hact. destruct Hact as [Hemail Hdel].
  apply String.eqb_eq in Hemail.
  destruct (a_deleted_at user) eqn:Hd; [discriminate|].
  rewrite (Hbad user Hin Hemail Hd). reflexivity.
Qed.

Lemma login_hides_which_check_failed_witness :
  statement_error mail_up SelectActiveByEmail = None
  /\ login mail_up "ada@example.com" "wrong password" two_accounts
     = (Ok invalid_credentials, two_accounts)
  /\ login mail_up "eve@example.com" "wrong password" two_accounts
     = (Ok invalid_credentials, two_accounts).
Proof.
  split; [reflexivity|]. split.
  - apply (login_hides_which_check_failed mail_up "ada@example.com" "wrong password"
             two_accounts).
    + reflexivity.
    + simpl. intros u [<-|[<-|[]]] Hemail _; [reflexivity|discriminate Hemail].
  - vm_compute. reflexivity.
Defined.

(** ** POST /auth/register *)

(** An address that some account has, be it verified or not, deleted or
    not, cannot be registered: the answer is 400 "User already exists", no
    account is added and no mail is sent. *)
Theorem register_refuses_known_email
    (e : AuthEnv) (email password name : string) (s : auth_world) (u : user_account) :
  statement_error e SelectByEmail = None ->
  In u (accounts s) ->
  a_email u = email ->
  register e email password name s = (Ok user_exists, s).
Proof.
  intros Hsel Hin Hemail.
  unfold register, acatch, abind, select_by_email, run, areturn. rewrite Hsel.
  destruct (find (fun u => String.eqb (a_email u) email) (accounts s)) eqn:Hfind;
    [reflexivity|].
  rewrite find_none_iff in Hfind. specialize (Hfind u Hin). cbn in Hfind.
  rewrite Hemail, String.eqb_refl in Hfind. discriminate.
Qed.

Lemma register_refuses_known_email_witness :
  statement_error mail_up SelectByEmail = None
  /\ In bob (accounts two_accounts)
  /\ a_email bob = "bob@example.com"
  /\ register mail_up "bob@example.com" "another password" "Robert" two_accounts
     = (Ok user_exists, two_accounts).
Proof.
  split; [reflexivity|]. split; [simpl; tauto|]. split; [reflexivity|].
  apply (register_refuses_known_email mail_up "bob@example.com" "another password"
           "Robert" two_accounts bob).
  - reflexivity.
  - simpl. tauto.
  - reflexivity.
Defined.

Lemma find_app_new {T} (p : T -> bool) (l : list T) (x : T) :
  existsb p l = false -> p x = true -> find p (l ++ [x])%list = Some x.
Proof.
  induction l as [|y l IH]; cbn; intros Hl Hx.
  - rewrite Hx. reflexivity.
  - apply orb_false_elim in Hl. destruct Hl as [Hy Hl]. rewrite Hy. apply IH; assumption.
Qed.

Lemma find_existsb {T} (p : T -> bool) (l : list T) :
  existsb p l = false -> find p l = None.
Proof.
  induction l as [|y l IH]; cbn; [reflexivity|]. intros H.
  apply orb_false_elim in H. destruct H as [Hy Hl]. rewrite Hy. apply IH, Hl.
Qed.

Lemma update_where_id_new (f : user_account -> user_account) (l : list user_account)
    (x : user_account) :
  existsb (fun u => String.eqb (a_id u) (a_id x)) l = false ->
  update_where_id f (a_id x) (l ++ [x])%list = (l ++ [f x])%list.
Proof.
  unfold update_where_id. induction l as [|y l IH]; cbn; intros H.
  - rewrite String.eqb_refl. reflexivity.
  - apply orb_false_elim in H. destruct H as [Hy Hl]. rewrite Hy, (IH Hl). reflexivity.
Qed.

Lemma register_inserts (e : AuthEnv) (email password name : string) (s : auth_world) :
  statement_error e SelectByEmail = None ->
  statement_error e InsertUser = None ->
  existsb (fun u => String.eqb (a_email u) email) (accounts s) = false ->
  existsb (fun u => String.eqb (a_id u) (randomUUID e 1)) (accounts s) = false ->
  register e email password name s
  = (Ok (match resend_fetch e with
         | FetchResponse true _ _ => registered e
         | _ => internal_error
         end),
     AuthWorld
       (accounts s ++ [UserAccount (randomUUID e 1) email (bcrypt_hash e password) name 0
                         (Some (randomUUID e 0)) None None (today e) None])
       (mails s ++ [Mail email "Verify your ThisAICodes account"
                      ("https://thisaicodes.com/auth/verify?token="
                         +:+ randomUUID e 0)])).
Proof.
  intros Hsel Hins Hemail Hid.
  unfold register, acatch, abind, select_by_email, insert_user, run, areturn.
  rewrite Hsel, (find_existsb _ _ Hemail), Hins, Hid, Hemail.
  unfold sendVerificationEmail, acatch, post_mail, athrow. cbn.
  destruct (resend_fetch e) as [x|[] st b]; reflexivity.
Qed.

(** Registration is not atomic.  When the account has been inserted and the
    verification mail then fails, the answer is 500 "Internal server error",
    yet the unverified account stays in the table; every later attempt to
    register the same address is answered 400 "User already exists". *)
Theorem register_keeps_account_when_mail_fails
    (e e' : AuthEnv) (email password name : string) (s : auth_world) :
  statement_error e SelectByEmail = None ->
  statement_error e InsertUser = None ->
  existsb (fun u => String.eqb (a_email u) email) (accounts s) = false ->
  existsb (fun u => String.eqb (a_id u) (randomUUID e 1)) (accounts s) = false ->
  (forall st b, resend_fetch e <> FetchResponse true st b) ->
  statement_error e' SelectByEmail = None ->
  let r := register e email password name s in
  fst r = Ok internal_error
  /\ accounts (snd r)
     = (accounts s ++ [UserAccount (randomUUID e 1) email (bcrypt_hash e password) name 0
                         (Some (randomUUID e 0)) None None (today e) None])%list
  /\ forall password' name',
       register e' email password' name' (snd r) = (Ok user_exists, snd r).
Proof.
  intros Hsel Hins Hemail Hid Hmail Hsel'. cbn zeta.
  rewrite (register_inserts e email password name s Hsel Hins Hemail Hid). cbn [fst snd].
  split; [|split; [reflexivity|]].
  - destruct (resend_fetch e) as [x|[] st b]; try reflexivity.
    exfalso. apply (Hmail st b). reflexivity.
  - intros password' name'.
    unfold register, acatch, abind, select_by_email, run, areturn. rewrite Hsel'.
    cbn [accounts].
    rewrite (find_app_new _ _ _ Hemail); [reflexivity|].
    cbn. apply String.eqb_refl.
Qed.

Lemma register_keeps_account_when_mail_fails_witness :
  statement_error mail_down SelectByEmail = None
  /\ statement_error mail_down InsertUser = None
  /\ existsb (fun u => String.eqb (a_email u) "eve@example.com") (accounts two_accounts)
     = false
  /\ existsb (fun u => String.eqb (a_id u) (randomUUID mail_down 1))
             (accounts two_accounts) = false
  /\ statement_error mail_up SelectByEmail = None
  /\ fst (register mail_down "eve@example.com" "hunter2 hunter2" "Eve" two_accounts)
     = Ok internal_error
  /\ accounts (snd (register mail_down "eve@example.com" "hunter2 hunter2" "Eve"
                      two_accounts))
     = (accounts two_accounts
        ++ [UserAccount (randomUUID mail_down 1) "eve@example.com"
              (bcrypt_hash mail_down "hunter2 hunter2") "Eve" 0
              (Some (randomUUID mail_down 0)) None None (today mail_down) None])%list
  /\ forall password' name',
       register mail_up "eve@example.com" password' name'
         (snd (register mail_down "eve@example.com" "hunter2 hunter2" "Eve" two_accounts))
       = (Ok user_exists,
          snd (register mail_down "eve@example.com" "hunter2 hunter2" "Eve" two_accounts)).
Proof.
  split; [reflexivity|]. split; [reflexivity|]. split; [reflexivity|].
  split; [vm_compute; reflexivity|]. split; [reflexivity|].
  apply (register_keeps_account_when_mail_fails mail_down mail_up "eve@example.com"
           "hunter2 hunter2" "Eve" two_accounts).
  - reflexivity.
  - reflexivity.
  - reflexivity.
  - vm_compute. reflexivity.
  - intros st b H. discriminate H.
  - reflexivity.
Defined.

(** ** Registration, verification and login together *)

Lemma existsb_weaken {T} (p q : T -> bool) (l : list T) :
  (forall u, q u = true -> p u = true) -> existsb p l = false -> existsb q l = false.
Proof.
  intros Hpq. induction l as [|y l IH]; cbn; [reflexivity|]. intros H.
  apply orb_false_elim in H. destruct H as [Hy Hl]. rewrite (IH Hl), orb_false_r.
  destruct (q y) eqn:Hq; [|reflexivity]. rewrite (Hpq y Hq) in Hy. discriminate.
Qed.

(** A new address that registers, follows the link of the verification mail
    and then logs in with the same password receives a session.  Provided
    that no statement rejects, the mail provider accepts the message, the
    two fresh UUIDs are not in use as an id or as a pending token,
    [bcrypt.compare] accepts the password for the hash stored at
    registration and [jwt.sign] returns: the registration is answered 200
    and mails the address a link that carries the stored token, the request
    with that token is answered 200, and the login is answered with the
    signed token and the id, address and name of the new account. *)
Theorem register_verify_login
    (e1 e2 e3 : AuthEnv) (email password name token : string) (s : auth_world)
    (st : Z) (b : string) :
  (forall q, statement_error e1 q = None) ->
  (forall q, statement_error e2 q = None) ->
  (forall q, statement_error e3 q = None) ->
  resend_fetch e1 = FetchResponse true st b ->
  existsb (fun u => String.eqb (a_email u) email) (accounts s) = false ->
  existsb (fun u => String.eqb (a_id u) (randomUUID e1 1)) (accounts s) = false ->
  existsb (pending (randomUUID e1 0)) (accounts s) = false ->
  bcrypt_compare e3 password (bcrypt_hash e1 password) = true ->
  jwt_sign e3 (JObj [("userId", JStr (randomUUID e1 1)); ("email", JStr email);
                     ("name", JStr name)]) = Ok token ->
  let s1 := snd (register e1 email password name s) in
  let s2 := snd (verify_email e2 (randomUUID e1 0) s1) in
  fst (register e1 email password name s) = Ok (registered e1)
  /\ mails s1 = (mails s ++ [Mail email "Verify your ThisAICodes account"
                               ("https://thisaicodes.com/auth/verify?token="
                                  +:+ randomUUID e1 0)])%list
  /\ fst (verify_email e2 (randomUUID e1 0) s1) = Ok email_verified
  /\ fst (login e3 email password s2)
     = Ok (Response 200
             (JObj [("token", JStr token);
                    ("user", JObj [("id", JStr (randomUUID e1 1));
                                   ("email", JStr email); ("name", JStr name);
                                   ("createdAt", JStr (today e1))])])).
Proof.
  intros H1 H2 H3 Hmail Hemail Hid Htoken Hpw Hsign. cbn zeta.
  rewrite (register_inserts e1 email password name s
             (H1 SelectByEmail) (H1 InsertUser) Hemail Hid).
  rewrite Hmail. cbn [fst snd mails].
  split; [reflexivity|]. split; [reflexivity|].
  set (new := UserAccount (randomUUID e1 1) email (bcrypt_hash e1 password) name 0
                (Some (randomUUID e1 0)) None None (today e1) None).
  set (m := (mails s ++ _)%list).
  assert (verify_email e2 (randomUUID e1 0) (AuthWorld (accounts s ++ [new]) m)
          = (Ok email_verified,
             AuthWorld (accounts s ++ [verified (today e2) new]) m)) as Hverify.
  { unfold verify_email, acatch, abind, select_by_token, update_verified, run, areturn.
    rewrite !H2. cbn [accounts].
    rewrite (find_app_new _ _ new Htoken);
      [|unfold pending, new; cbn; rewrite String.eqb_refl; reflexivity].
    unfold set_accounts. cbn [accounts mails].
    rewrite (update_where_id_new (verified (today e2)) (accounts s) new Hid).
    reflexivity. }
  rewrite Hverify. cbn [fst snd]. split; [reflexivity|].
  unfold login, acatch, abind, select_active_by_email, update_last_login, run,
    areturn, of_outcome.
  rewrite !H3. cbn [accounts].
  rewrite (find_app_new (active email) _ (verified (today e2) new)).
  - unfold new, token_payload, session, verified.
    cbn [a_password_hash a_email_verified a_id a_email a_name a_created_at].
    rewrite Hpw. cbn [negb Z.eqb]. rewrite Hsign. reflexivity.
  - apply (existsb_weaken (fun u => String.eqb (a_email u) email)); [|exact Hemail].
    intros u Hu. unfold active in Hu. apply andb_prop in Hu. tauto.
  - unfold active, new. cbn. rewrite String.eqb_refl. reflexivity.
Qed.

Lemma register_verify_login_witness :
  (forall q, statement_error mail_up q = None)
  /\ resend_fetch mail_up = FetchResponse true 200 "{}"
  /\ existsb (fun u => String.eqb (a_email u) "eve@example.com") (accounts two_accounts)
     = false
  /\ existsb (fun u => String.eqb (a_id u) (randomUUID mail_up 1)) (accounts two_accounts)
     = false
  /\ existsb (pending (randomUUID mail_up 0)) (accounts two_accounts) = false
  /\ bcrypt_compare mail_up "hunter2 hunter2" (bcrypt_hash mail_up "hunter2 hunter2")
     = true
  /\ jwt_sign mail_up (JObj [("userId", JStr (randomUUID mail_up 1));
                             ("email", JStr "eve@example.com"); ("name", JStr "Eve")])
     = Ok "jwt:uuid-1"
  /\ fst (register mail_up "eve@example.com" "hunter2 hunter2" "Eve" two_accounts)
     = Ok (registered mail_up)
  /\ mails (snd (register mail_up "eve@example.com" "hunter2 hunter2" "Eve"
                   two_accounts))
     = (mails two_accounts
        ++ [Mail "eve@example.com" "Verify your ThisAICodes account"
              ("https://thisaicodes.com/auth/verify?token=" +:+ randomUUID mail_up 0)])%list
  /\ fst (verify_email mail_up (randomUUID mail_up 0)
            (snd (register mail_up "eve@example.com" "hunter2 hunter2" "Eve"
                    two_accounts)))
     = Ok email_verified
  /\ fst (login mail_up "eve@example.com" "hunter2 hunter2"
            (snd (verify_email mail_up (randomUUID mail_up 0)
                    (snd (register mail_up "eve@example.com" "hunter2 hunter2" "Eve"
                            two_accounts)))))
     = Ok (Response 200
             (JObj [("token", JStr "jwt:uuid-1");
                    ("user", JObj [("id", JStr (randomUUID mail_up 1));
                                   ("email", JStr "eve@example.com");
                                   ("name", JStr "Eve");
                                   ("createdAt", JStr (today mail_up))])])).
Proof.
  split; [reflexivity|]. split; [reflexivity|]. split; [reflexivity|].
  split; [vm_compute; reflexivity|]. split; [vm_compute; reflexivity|].
  split; [vm_compute; reflexivity|]. split; [vm_compute; reflexivity|].
  apply (register_verify_login mail_up mail_up mail_up "eve@example.com"
           "hunter2 hunter2" "Eve" "jwt:uuid-1" two_accounts 200 "{}").
  - reflexivity.
  - reflexivity.
  - reflexivity.
  - reflexivity.
  - reflexivity.
  - vm_compute. reflexivity.
  - vm_compute. reflexivity.
  - vm_compute. reflexivity.
  - vm_compute. reflexivity.
Defined.
